(** * Form Submission API (index.py): model and verified properties

    A shallow embedding of [index.py]: the request schema [FormData], the
    ORM record [Grandeur], the session provider [get_db], the three
    handlers [root], [submit_form], [health_check] and the start-up check
    on [DATABASE_URL].  Storage and logging are explicit state; Python
    exceptions are an error result threaded through a small monad. *)

From Stdlib Require Import Ascii String.
From stdpp Require Import gmap strings list fin_maps pretty.

Local Open Scope Z_scope.

(** ** Strings of the request

    A Python [str] is a sequence of Unicode code points. *)

Definition char := N.
Definition str := list char.

(** Code points of an ASCII literal, to write examples. *)
Fixpoint codepoints (lit : string) : str :=
  match lit with
  | EmptyString => []
  | String a rest => N_of_ascii a :: codepoints rest
  end.

(** ** The tables of the validation library

    [FormData] relies on three things that live in pydantic and its
    dependencies, not in [index.py]: the whitespace class used by
    [str_strip_whitespace], the class [\d] of the pattern engine, and the
    address grammar behind [EmailStr] (which returns the normalised
    address).  They are parameters of the model.  The three laws are the
    only facts about them that the development uses: U+0020 is whitespace,
    the ASCII digits are in [\d], and no [\d] character is whitespace. *)

Record Tables := {
  is_whitespace : char -> bool;
  is_digit : char -> bool;
  validate_email : str -> option str;
  space_is_whitespace : is_whitespace 32%N = true;
  ascii_digit_is_digit :
    forall c : char, (48 <= c <= 57)%N -> is_digit c = true;
  digit_not_whitespace :
    forall c : char, is_digit c = true -> is_whitespace c = false
}.

(** ** Validation schema: [class FormData(BaseModel)] *)

Module Schema.

(** A field of the JSON body as the schema receives it: absent from the
    body, present with a value that is not a string (a number, [null], a
    list, ...), or present with a string. *)
Inductive Raw :=
| Absent
| NotAString
| Str (x : str).

Record RawForm := {
  raw_name : Raw;
  raw_email : Raw;
  raw_number : Raw
}.

(** A validated [FormData] instance. *)
Record FormData := {
  name : str;
  email : str;
  number : str
}.

Inductive Field := FName | FEmail | FNumber.

Inductive Reason :=
| Missing
| StringType
| StringTooShort
| StringTooLong
| ValueError_email
| StringPatternMismatch.

Definition FieldError : Type := Field * Reason.

Section Validate.
Context (T : Tables).

(** [str_strip_whitespace=True]: leading and trailing whitespace goes. *)
Fixpoint lstrip (x : str) : str :=
  match x with
  | [] => []
  | c :: rest => if is_whitespace T c then lstrip rest else c :: rest
  end.

Definition strip (x : str) : str := rev (lstrip (rev (lstrip x))).

(** [pattern=r"^\d{10}$"] on an already stripped string. *)
Definition matches_10_digits (x : str) : bool :=
  (length x =? 10)%nat && forallb (is_digit T) x.

(** [name: str = Field(..., min_length=1, max_length=255)] *)
Definition validate_name (r : Raw) : Reason + str :=
  match r with
  | Absent => inl Missing
  | NotAString => inl StringType
  | Str raw =>
      let v := strip raw in
      if (length v <? 1)%nat then inl StringTooShort
      else if (255 <? length v)%nat then inl StringTooLong
      else inr v
  end.

(** [email: EmailStr] *)
Definition validate_email_field (r : Raw) : Reason + str :=
  match r with
  | Absent => inl Missing
  | NotAString => inl StringType
  | Str raw =>
      match validate_email T (strip raw) with
      | Some normalised => inr normalised
      | None => inl ValueError_email
      end
  end.

(** [number: str = Field(..., pattern=r"^\d{10}$")] *)
Definition validate_number (r : Raw) : Reason + str :=
  match r with
  | Absent => inl Missing
  | NotAString => inl StringType
  | Str raw =>
      let v := strip raw in
      if matches_10_digits v then inr v else inl StringPatternMismatch
  end.

Definition field_errors (f : Field) {A} (r : Reason + A) : list FieldError :=
  match r with
  | inl why => [(f, why)]
  | inr _ => []
  end.

(** Validation of the whole model: every field is checked and the errors
    of all fields are reported together. *)
Definition validate (raw : RawForm) : list FieldError + FormData :=
  let n := validate_name (raw_name raw) in
  let e := validate_email_field (raw_email raw) in
  let p := validate_number (raw_number raw) in
  match n, e, p with
  | inr n', inr e', inr p' => inr {| name := n'; email := e'; number := p' |}
  | _, _, _ =>
      inl (field_errors FName n ++ field_errors FEmail e
           ++ field_errors FNumber p)
  end.

End Validate.
End Schema.

(** ** Exceptions, log records and the journal of a run *)

Inductive exn :=
| SQLAlchemyError (msg : string)
| HTTPException (status_code : Z) (detail : string)
| RequestValidationError (errors : list Schema.FieldError)
| ValueError (msg : string)
| OtherException (msg : string).

(** [f"{e}"] *)
Definition exn_str (e : exn) : string :=
  match e with
  | SQLAlchemyError msg => msg
  | HTTPException sc detail => pretty sc +:+ ": " +:+ detail
  | RequestValidationError _ => "validation error"
  | ValueError msg => msg
  | OtherException msg => msg
  end.

Inductive Level := INFO | ERROR.

Inductive DbOp :=
| OpCreateEngine | OpCreateAll
| OpSessionLocal | OpGrandeur | OpAdd | OpCommit | OpRefresh
| OpRollback | OpClose.

Inductive Stmt := INSERT (id : Z) | SELECT (id : Z).

(** What a run leaves behind, oldest first: log records written through
    [logger], calls on the session with the exception they raised if any,
    and the statements that reached the table. *)
Inductive Event :=
| Log (level : Level) (text : string)
| Db (op : DbOp) (raised : option exn)
| Sql (st : Stmt).

(** ** Persistence record: [class Grandeur(Base)]

    An ORM object and a row of the table [grandeur] have the same shape.
    A column holds [None] until it is given a value. *)

Record Grandeur := {
  id : option Z;
  name : option str;
  email : option str;
  phone_number : option str;
  created_at : option Z
}.

(** The object that [Grandeur(name=n, email=e, phone_number=p)] builds:
    the key and the timestamp are left to the insert. *)
Definition new_object (n e p : str) : Grandeur :=
  {| id := None; name := Some n; email := Some e; phone_number := Some p;
     created_at := None |}.

(** The row that the insert of an object makes: the key [k] comes from the
    sequence, and [created_at] takes its default, the time [t] on the
    clock, when it was not supplied. *)
Definition stored (ob : Grandeur) (k t : Z) : Grandeur :=
  {| id := Some k; name := name ob; email := email ob;
     phone_number := phone_number ob;
     created_at := match created_at ob with
                   | Some t' => Some t'
                   | None => Some t
                   end |}.

(** ** The state a request runs in

    [table] and [next_id] are the table [grandeur] and the sequence that
    feeds its primary key; [heap] holds the ORM objects the request has
    created, addressed by reference, so that the handler and the session
    see the same object; [pending] is the session's list of added objects.
    [outcome] tells, for the n-th fallible call of the request, whether it
    raises; [calls] counts those calls; [now] is the clock read by the
    column default [datetime.utcnow]. *)

Record Ctx := {
  table : gmap Z Grandeur;
  next_id : Z;
  journal : list Event;
  heap : list Grandeur;
  pending : list nat;
  outcome : nat -> option exn;
  calls : nat;
  now : Z
}.

Inductive Result (A : Type) :=
| Ok (a : A)
| Raise (e : exn).
Arguments Ok {A} a.
Arguments Raise {A} e.

Definition M (A : Type) : Type := Ctx -> Result A * Ctx.

Definition ret {A} (a : A) : M A := fun c => (Ok a, c).

Definition raise {A} (e : exn) : M A := fun c => (Raise e, c).

Definition bind {A B} (m : M A) (k : A -> M B) : M B := fun c =>
  match m c with
  | (Ok a, c') => k a c'
  | (Raise e, c') => (Raise e, c')
  end.

(** [try: m  except ...: h e] *)
Definition try_except {A} (m : M A) (h : exn -> M A) : M A := fun c =>
  match m c with
  | (Ok a, c') => (Ok a, c')
  | (Raise e, c') => h e c'
  end.

(** [try: m  finally: f] *)
Definition try_finally {A} (m : M A) (f : M unit) : M A := fun c =>
  match m c with
  | (r, c') =>
      match f c' with
      | (Ok _, c'') => (r, c'')
      | (Raise e, c'') => (Raise e, c'')
      end
  end.

Notation "'do' x <- m ; k" := (bind m (fun x => k))
  (at level 10, x name, m at level 100, k at level 200).

Definition set_journal (j : list Event) (c : Ctx) : Ctx :=
  {| table := table c; next_id := next_id c; journal := j; heap := heap c;
     pending := pending c; outcome := outcome c; calls := calls c;
     now := now c |}.

Definition set_heap (h : list Grandeur) (c : Ctx) : Ctx :=
  {| table := table c; next_id := next_id c; journal := journal c; heap := h;
     pending := pending c; outcome := outcome c; calls := calls c;
     now := now c |}.

Definition set_pending (p : list nat) (c : Ctx) : Ctx :=
  {| table := table c; next_id := next_id c; journal := journal c;
     heap := heap c; pending := p; outcome := outcome c; calls := calls c;
     now := now c |}.

Definition set_calls (n : nat) (c : Ctx) : Ctx :=
  {| table := table c; next_id := next_id c; journal := journal c;
     heap := heap c; pending := pending c; outcome := outcome c; calls := n;
     now := now c |}.

Definition set_store (t : gmap Z Grandeur) (n : Z) (c : Ctx) : Ctx :=
  {| table := t; next_id := n; journal := journal c; heap := heap c;
     pending := pending c; outcome := outcome c; calls := calls c;
     now := now c |}.

Definition emit (ev : Event) : M unit := fun c =>
  (Ok tt, set_journal (journal c ++ [ev]) c).

(** [logger.info] and [logger.error] *)
Definition logger_info (text : string) : M unit := emit (Log INFO text).
Definition logger_error (text : string) : M unit := emit (Log ERROR text).

(** A call that may raise: it takes the next outcome of the environment
    and, when that is an exception, records the failed call and raises.
    The calls that may raise are those the source puts inside a [try]
    block: the construction of the record, [add], [commit] and [refresh]
    in [submit_form], [commit] in [get_db], and [create_engine] and
    [create_all] at start-up.  A database that turns a row down (a value
    too long for its column, a null where none is allowed) shows here as
    a [commit] that raises. *)
Definition fallible (op : DbOp) : M unit := fun c =>
  let c' := set_calls (S (calls c)) c in
  match outcome c (calls c) with
  | Some e => (Raise e, set_journal (journal c' ++ [Db op (Some e)]) c')
  | None => (Ok tt, c')
  end.

(** ** The session (SQLAlchemy [Session]) *)

(** [SessionLocal()]: a new session with nothing pending.  It opens no
    connection and is taken not to raise. *)
Definition SessionLocal : M unit := fun c =>
  (Ok tt, set_journal (journal c ++ [Db OpSessionLocal None])
            (set_pending [] c)).

(** [Grandeur(name=..., email=..., phone_number=...)]: a new object on
    the heap, and the reference to it. *)
Definition new_Grandeur (n e p : str) : M nat :=
  do _ <- fallible OpGrandeur;
  fun c => (Ok (length (heap c)), set_heap (heap c ++ [new_object n e p]) c).

(** [db.add(obj)] *)
Definition db_add (ref : nat) : M unit :=
  do _ <- fallible OpAdd;
  fun c =>
    (Ok tt, set_journal (journal c ++ [Db OpAdd None])
              (set_pending (pending c ++ [ref]) c)).

(** The insert of one pending object: the sequence gives the key, the row
    goes into the table, and the object sees its key and its timestamp.
    The sequence is a counter without an upper bound: the width of the
    [Integer] column and what the backend does once its sequence is
    exhausted are outside the model.  The key is fresh when the sequence
    is ahead of the keys of the table ([wf_world] below), which is what
    the properties about identifiers assume; a database would turn down
    a key that is already in the table. *)
Definition insert_one (c : Ctx) (ref : nat) : Ctx :=
  match heap c !! ref with
  | None => c
  | Some o =>
      let k := next_id c in
      let row := stored o k (now c) in
      set_journal (journal c ++ [Sql (INSERT k)])
        (set_heap (<[ref := row]> (heap c))
           (set_store (<[k := row]> (table c)) (k + 1) c))
  end.

(** [db.commit()]: either it raises and nothing is written, or every
    pending object is inserted. *)
Definition db_commit : M unit :=
  do _ <- fallible OpCommit;
  fun c =>
    let c' := foldl insert_one c (pending c) in
    (Ok tt, set_journal (journal c' ++ [Db OpCommit None]) (set_pending [] c')).

(** [db.refresh(obj)]: the object is reloaded from its row. *)
Definition db_refresh (ref : nat) : M unit :=
  do _ <- fallible OpRefresh;
  fun c =>
    match heap c !! ref with
    | Some o =>
        match id o with
        | Some k =>
            match table c !! k with
            | Some row =>
                (Ok tt, set_journal (journal c ++ [Sql (SELECT k);
                                                   Db OpRefresh None])
                          (set_heap (<[ref := row]> (heap c)) c))
            | None =>
                (Raise (SQLAlchemyError "Could not refresh instance"), c)
            end
        | None => (Raise (SQLAlchemyError "Instance is not persistent"), c)
        end
    | None => (Raise (OtherException "no such object"), c)
    end.

(** [db.rollback()]: what was added and not committed is dropped. *)
Definition db_rollback : M unit := fun c =>
  (Ok tt, set_journal (journal c ++ [Db OpRollback None]) (set_pending [] c)).

(** [db.close()] *)
Definition db_close : M unit := fun c =>
  (Ok tt, set_journal (journal c ++ [Db OpClose None]) (set_pending [] c)).

(** [obj.id] *)
Definition attr_id (ref : nat) : M (option Z) := fun c =>
  match heap c !! ref with
  | Some o => (Ok (id o), c)
  | None => (Raise (OtherException "no such object"), c)
  end.

(** ** Session provider: [def get_db()]

    [get_db] is a generator with one [yield].  [get_db_enter] is the code
    up to the [yield]; [get_db_exit] is the code that runs when the
    generator is resumed: with [Next] when the caller just continues it,
    with [Throw e] when the caller throws [e] in at the [yield].  The bare
    [except:] catches whatever was raised in the [try] block and does not
    raise again. *)

Inductive Signal := Next | Throw (e : exn).

Definition get_db_enter : M unit := SessionLocal.

Definition at_yield (sg : Signal) : M unit :=
  match sg with
  | Next => ret tt
  | Throw e => raise e
  end.

Definition get_db_exit (sg : Signal) : M unit :=
  try_finally
    (try_except
       (do _ <- at_yield sg; db_commit)
       (fun _ => db_rollback))
    db_close.

(** ** HTTP handlers *)

Inductive Body :=
| Text (t : string)
| Submitted (message : string) (record_id : option Z)
| Health (status : string)
| Detail (detail : string)
| ValidationDetail (errors : list Schema.FieldError)
| InternalServerError.

Record Response := {
  status : Z;
  body : Body
}.

(** [f"{form_entry.id}"] *)
Definition show_id (k : option Z) : string :=
  match k with
  | Some z => pretty z
  | None => "None"
  end.

(** [@app.get("/") def root()] *)
Definition root : M Body := ret (Text "Hello World!").

Definition database_error_detail : string :=
  "Database error occurred while submitting the form".

Definition unexpected_error_detail : string :=
  "An unexpected error occurred while processing your request".

(** The two [except] clauses of [submit_form], in order. *)
Definition submit_form_except (e : exn) : M Body :=
  match e with
  | SQLAlchemyError _ =>
      do _ <- logger_error ("Database error: " +:+ exn_str e);
      raise (HTTPException 500 database_error_detail)
  | _ =>
      do _ <- logger_error ("Unexpected error: " +:+ exn_str e);
      raise (HTTPException 500 unexpected_error_detail)
  end.

(** [@app.post("/submit-form", status_code=201) async def submit_form] *)
Definition submit_form (data : Schema.FormData) : M Body :=
  try_except
    (do form_entry <- new_Grandeur (Schema.name data) (Schema.email data)
                        (Schema.number data);
     do _ <- db_add form_entry;
     do _ <- db_commit;
     do _ <- db_refresh form_entry;
     do k <- attr_id form_entry;
     do _ <- logger_info ("Form submitted successfully. Record ID: "
                          +:+ show_id k);
     ret (Submitted "Form submitted successfully!" k))
    submit_form_except.

(** The [except Exception] clause of [health_check]. *)
Definition health_check_except (e : exn) : M Body :=
  do _ <- logger_error ("Health check failed: " +:+ exn_str e);
  raise (HTTPException 503 "Service unavailable").

(** [@app.get("/health") async def health_check] *)
Definition health_check : M Body :=
  try_except (ret (Health "healthy")) health_check_except.

(** ** The framework around the handlers

    What FastAPI does with a route that declares [Depends(get_db)], as far
    as the handlers and the provider can observe it: the provider is
    entered, the body is validated, the handler runs.  When the handler
    returned, the generator is resumed and the answer is the handler's
    value.  When the handler raised, its exception is thrown in at the
    [yield].

    [index.py] pins no release of FastAPI, and the releases differ on two
    points, which are the two fields of [Release]:
    - [throws_rejection]: whether the validation error of a rejected body
      is thrown in at the [yield] like a handler's exception, or the
      generator is just resumed;
    - [answers_swallowed]: whether an exception that was thrown in at the
      [yield] and that the provider did not raise again still makes the
      answer (the status and detail of an [HTTPException], the 422 of a
      validation error), or the framework, left without an exception and
      without a value, answers a bare 500.

    Older releases throw the rejection in and answer from the exception
    ([older_release]); later ones resume the generator on a rejection and
    answer a bare 500 for what the provider swallowed ([middle_release]);
    the recent ones throw the rejection in and answer a bare 500 for what
    the provider swallowed ([recent_release]).  The properties below are
    stated for every [Release]. *)

Record Release := {
  throws_rejection : bool;
  answers_swallowed : bool
}.

Definition older_release : Release :=
  {| throws_rejection := true; answers_swallowed := true |}.

Definition middle_release : Release :=
  {| throws_rejection := false; answers_swallowed := false |}.

Definition recent_release : Release :=
  {| throws_rejection := true; answers_swallowed := false |}.

(** What is left of an exception [e] that the provider swallowed. *)
Definition after_swallow (R : Release) (e : exn) : exn :=
  if answers_swallowed R then e
  else OtherException "No response object was returned.".

Definition attempt {A} (m : M A) : M (Result A) := fun c =>
  match m c with
  | (r, c') => (Ok r, c')
  end.

(** A route that depends on a generator whose code up to the [yield] is
    [enter] and whose code after it is [get_db_exit]. *)
Definition with_dependency {A} (enter : M unit) (R : Release)
    (validated : list Schema.FieldError + A) (handler : A -> M Body)
    : M Body :=
  do _ <- enter;
  match validated with
  | inl errors =>
      if throws_rejection R
      then do _ <- get_db_exit (Throw (RequestValidationError errors));
           raise (after_swallow R (RequestValidationError errors))
      else do _ <- get_db_exit Next;
           raise (RequestValidationError errors)
  | inr args =>
      do r <- attempt (handler args);
      match r with
      | Ok b => do _ <- get_db_exit Next; ret b
      | Raise e => do _ <- get_db_exit (Throw e); raise (after_swallow R e)
      end
  end.

Definition with_get_db {A} : Release -> list Schema.FieldError + A ->
    (A -> M Body) -> M Body :=
  with_dependency get_db_enter.


(** The answer for a handler's result: the route's status code with the
    returned body, the status and detail of an [HTTPException], 422 with
    the field errors for a validation error, and a bare 500 for anything
    else. *)
Definition respond (status_code : Z) (r : Result Body) : Response :=
  match r with
  | Ok b => {| status := status_code; body := b |}
  | Raise (HTTPException sc detail) => {| status := sc; body := Detail detail |}
  | Raise (RequestValidationError errors) =>
      {| status := 422; body := ValidationDetail errors |}
  | Raise _ => {| status := 500; body := InternalServerError |}
  end.

Inductive Request :=
| GET_root
| POST_submit_form (form : Schema.RawForm)
| GET_health.

(** The routes, over the code that the dependency runs up to its
    [yield]; [route] is the application as it is. *)
Definition route_on (enter : M unit) (R : Release) (T : Tables)
    (rq : Request) : Z * M Body :=
  match rq with
  | GET_root => (200, root)
  | POST_submit_form form =>
      (201, with_dependency enter R (Schema.validate T form) submit_form)
  | GET_health =>
      (200, with_dependency enter R (inr tt) (fun _ => health_check))
  end.

Definition route : Release -> Tables -> Request -> Z * M Body :=
  route_on get_db_enter.

(** ** The service across requests

    What outlives a request: the table, its sequence and the journal.
    Each request comes with its own environment: the outcomes of its
    fallible calls and the time on the clock. *)

Record World := {
  w_table : gmap Z Grandeur;
  w_next_id : Z;
  w_journal : list Event
}.

Record Env := {
  e_outcome : nat -> option exn;
  e_now : Z
}.

Definition enter (w : World) (env : Env) : Ctx :=
  {| table := w_table w; next_id := w_next_id w; journal := w_journal w;
     heap := []; pending := []; outcome := e_outcome env; calls := 0%nat;
     now := e_now env |}.

Definition leave (c : Ctx) : World :=
  {| w_table := table c; w_next_id := next_id c; w_journal := journal c |}.

Definition handle_on (enter_db : M unit) (R : Release) (T : Tables)
    (w : World) (rq : Request) (env : Env) : World * Response :=
  let (code, m) := route_on enter_db R T rq in
  match m (enter w env) with
  | (r, c) => (leave c, respond code r)
  end.

Definition handle : Release -> Tables -> World -> Request -> Env
    -> World * Response :=
  handle_on get_db_enter.

Fixpoint serve (R : Release) (T : Tables) (w : World)
    (rs : list (Request * Env)) : World * list Response :=
  match rs with
  | [] => (w, [])
  | (rq, env) :: rest =>
      let (w1, resp) := handle R T w rq env in
      let (w2, resps) := serve R T w1 rest in
      (w2, resp :: resps)
  end.

(** The identifiers handed out by the successful submissions of a run. *)
Definition returned_id (r : Response) : option Z :=
  match status r, body r with
  | 201, Submitted _ (Some k) => Some k
  | _, _ => None
  end.

Definition returned_ids (rs : list Response) : list Z :=
  omap returned_id rs.

(** The environment in which no call raises, and the one in which only the
    n-th fallible call of the request raises. *)
Definition no_faults (t : Z) : Env :=
  {| e_outcome := fun _ => None; e_now := t |}.

Definition fault_at (n : nat) (e : exn) (t : Z) : Env :=
  {| e_outcome := fun i => if (i =? n)%nat then Some e else None;
     e_now := t |}.

(** The fallible calls of a submission, in the order the handler and the
    provider make them. *)
Definition at_construct : nat := 0.
Definition at_add : nat := 1.
Definition at_commit : nat := 2.
Definition at_refresh : nat := 3.
Definition at_provider_commit : nat := 4.

(** ** Module initialisation: what runs when [index.py] is imported *)

Module Startup.

Record CORSMiddleware := {
  allow_origins : list string;
  allow_credentials : bool;
  allow_methods : list string;
  allow_headers : list string
}.

Record FastAPI := {
  title : string;
  description : string;
  version : string;
  middleware : list CORSMiddleware
}.

Definition add_middleware (a : FastAPI) (mw : CORSMiddleware) : FastAPI :=
  {| title := title a; description := description a; version := version a;
     middleware := mw :: middleware a |}.

(** The module once it is loaded. *)
Record Loaded := {
  DATABASE_URL : string;
  app : FastAPI
}.

(** [os.getenv(key)] on the process environment as [load_dotenv()] left
    it. *)
Definition os_getenv (environ : gmap string string) (key : string)
    : option string :=
  environ !! key.

(** Python's truth value of what [os.getenv] returns: [None] and the empty
    string are false. *)
Definition truthy (v : option string) : bool :=
  match v with
  | Some x => negb (String.eqb x "")
  | None => false
  end.

Definition missing_url : exn :=
  ValueError "DATABASE_URL environment variable is missing".

(** [DATABASE_URL = os.getenv("DATABASE_URL")] and the check after it. *)
Definition database_url (environ : gmap string string) : M string :=
  let v := os_getenv environ "DATABASE_URL" in
  if negb (truthy v) then raise missing_url else ret (default "" v).

Definition module_init (environ : gmap string string) : M Loaded :=
  do url <- database_url environ;
  do _ <- try_except
            (do _ <- fallible OpCreateEngine;
             logger_info "Database connection established successfully")
            (fun e =>
               do _ <- logger_error
                         ("Failed to establish database connection: "
                          +:+ exn_str e);
               raise e);
  let a := {| title := "Form Submission API";
              description := "API for handling form submissions";
              version := "1.0.0";
              middleware := [] |} in
  let a := add_middleware a
             {| allow_origins := ["*"]; allow_credentials := true;
                allow_methods := ["*"]; allow_headers := ["*"] |} in
  do _ <- try_except
            (do _ <- fallible OpCreateAll;
             logger_info "Database tables created successfully")
            (fun e =>
               do _ <- logger_error
                         ("Failed to create database tables: " +:+ exn_str e);
               raise e);
  ret {| DATABASE_URL := url; app := a |}.

End Startup.

(** ** Vocabulary of the statements *)

(** A string without any whitespace character. *)
Definition clean (T : Tables) (x : str) : Prop :=
  Forall (fun c => is_whitespace T c = false) x.

(** What [submit_form] answers and logs for an exception [e] caught by its
    [except] clauses. *)
Definition detail_for (e : exn) : string :=
  match e with
  | SQLAlchemyError _ => database_error_detail
  | _ => unexpected_error_detail
  end.

Definition log_for (e : exn) : string :=
  match e with
  | SQLAlchemyError _ => "Database error: " +:+ exn_str e
  | _ => "Unexpected error: " +:+ exn_str e
  end.

(** The answer to a submission whose handler caught [e]: the handler's
    [HTTPException] where the framework still answers from an exception
    that the provider swallowed, a bare 500 where it does not. *)
Definition error_response (R : Release) (e : exn) : Response :=
  {| status := 500;
     body := if answers_swallowed R then Detail (detail_for e)
             else InternalServerError |}.

(** The journal of a submission whose call [op] raised [e]. *)
Definition failed (op : DbOp) (e : exn) : list Event :=
  [Db op (Some e); Log ERROR (log_for e); Db OpRollback None; Db OpClose None].

(** The journal of the provider after a handler that did not raise: its
    own [commit] succeeds, or raises and is rolled back. *)
Definition provider_commit (o : option exn) : list Event :=
  match o with
  | Some e => [Db OpCommit (Some e); Db OpRollback None; Db OpClose None]
  | None => [Db OpCommit None; Db OpClose None]
  end.

(** What the provider leaves in the journal for a rejected body, and the
    answer to it. *)
Definition rejection_events (R : Release) (env : Env) : list Event :=
  Db OpSessionLocal None
  :: (if throws_rejection R then [Db OpRollback None; Db OpClose None]
      else provider_commit (e_outcome env 0%nat)).

Definition rejection_response (R : Release)
    (errors : list Schema.FieldError) : Response :=
  if throws_rejection R && negb (answers_swallowed R)
  then {| status := 500; body := InternalServerError |}
  else {| status := 422; body := ValidationDetail errors |}.

(** The context once [get_db] has produced its session. *)
Definition opened (w : World) (env : Env) : Ctx :=
  {| table := w_table w; next_id := w_next_id w;
     journal := w_journal w ++ [Db OpSessionLocal None];
     heap := []; pending := []; outcome := e_outcome env; calls := 0%nat;
     now := e_now env |}.

(** The context after [get_db] was resumed normally with nothing pending,
    and after an exception was thrown into it. *)
Definition after_next (c : Ctx) : Ctx :=
  {| table := table c; next_id := next_id c;
     journal := journal c ++ provider_commit (outcome c (calls c));
     heap := heap c; pending := []; outcome := outcome c;
     calls := S (calls c); now := now c |}.

Definition after_throw (c : Ctx) : Ctx :=
  {| table := table c; next_id := next_id c;
     journal := journal c ++ [Db OpRollback None; Db OpClose None];
     heap := heap c; pending := []; outcome := outcome c;
     calls := calls c; now := now c |}.

(** The row a submission of [d] inserts under key [k] at time [t]. *)
Definition row_of (d : Schema.FormData) (k t : Z) : Grandeur :=
  {| id := Some k; name := Some (Schema.name d);
     email := Some (Schema.email d);
     phone_number := Some (Schema.number d); created_at := Some t |}.

(** The sequence is ahead of every key of the table, as it is for a table
    whose rows were all numbered by it. *)
Definition wf_world (w : World) : Prop :=
  1 <= w_next_id w
  /\ forall k, is_Some (w_table w !! k) -> 0 < k < w_next_id w.

(** The shape of a row that came from a validated submission. *)
Definition row_ok (T : Tables) (row : Grandeur) : Prop :=
  exists n e p,
    name row = Some n /\ (1 <= length n <= 255)%nat
    /\ email row = Some e
    /\ phone_number row = Some p
    /\ length p = 10%nat /\ Forall (fun c => is_digit T c = true) p.

(** The handler has caught [e]: it raises the 500 of that exception and
    leaves the table [t], the sequence [k] and, in the journal, the events
    [evs] followed by the error record. *)
Definition caught_in (w : World) (t : gmap Z Grandeur) (k : Z)
    (evs : list Event) (e : exn) (r : Result Body * Ctx) : Prop :=
  exists c,
    r = (Raise (HTTPException 500 (detail_for e)), c)
    /\ table c = t /\ next_id c = k
    /\ journal c = w_journal w ++ Db OpSessionLocal None :: evs
                    ++ [Log ERROR (log_for e)].

(** A request either leaves the table and the sequence alone and returns
    no identifier, or it is a validated submission that inserted its row
    under the next key of the sequence. *)
Inductive Effect (T : Tables) (w : World) (rq : Request) (env : Env)
    (w' : World) (resp : Response) : Prop :=
| Untouched :
    w_table w' = w_table w -> w_next_id w' = w_next_id w ->
    status resp <> 201 -> returned_id resp = None ->
    Effect T w rq env w' resp
| Inserted (form : Schema.RawForm) (d : Schema.FormData) :
    rq = POST_submit_form form ->
    Schema.validate T form = inr d ->
    w_table w'
    = <[w_next_id w := row_of d (w_next_id w) (e_now env)]> (w_table w) ->
    w_next_id w' = w_next_id w + 1 ->
    (returned_id resp = None \/ returned_id resp = Some (w_next_id w)) ->
    Effect T w rq env w' resp.

(** [v] is [raw] without its leading and trailing whitespace: what was
    cut off at either end is whitespace only, and [v] neither begins nor
    ends with a whitespace character. *)
Definition trimmed_of (T : Tables) (raw v : str) : Prop :=
  exists pre post,
    raw = pre ++ v ++ post
    /\ forallb (is_whitespace T) pre = true
    /\ forallb (is_whitespace T) post = true
    /\ (forall c rest, v = c :: rest -> is_whitespace T c = false)
    /\ (forall rest c, v = rest ++ [c] -> is_whitespace T c = false).

(** The raw value of a field of the body, and what the schema reports
    for a field that holds no string. *)
Definition raw_field (f : Schema.Field) (form : Schema.RawForm)
    : Schema.Raw :=
  match f with
  | Schema.FName => Schema.raw_name form
  | Schema.FEmail => Schema.raw_email form
  | Schema.FNumber => Schema.raw_number form
  end.

Definition no_string_reason (r : Schema.Raw) : Schema.Reason :=
  match r with
  | Schema.Absent => Schema.Missing
  | _ => Schema.StringType
  end.

(** The world with more events in its journal and nothing else changed. *)
Definition extend (w : World) (evs : list Event) : World :=
  {| w_table := w_table w; w_next_id := w_next_id w;
     w_journal := w_journal w ++ evs |}.

(** The n-th fallible call of [submit_form], and what the handler has left
    in the journal when that call is reached. *)
Definition op_at (n : nat) : DbOp :=
  match n with
  | 0%nat => OpGrandeur
  | 1%nat => OpAdd
  | 2%nat => OpCommit
  | _ => OpRefresh
  end.

Definition events_before (n : nat) (k : Z) : list Event :=
  match n with
  | 0%nat | 1%nat => []
  | 2%nat => [Db OpAdd None]
  | _ => [Db OpAdd None; Sql (INSERT k); Db OpCommit None]
  end.

(** The journal of a submission that went through. *)
Definition created_events (w : World) (env : Env) : list Event :=
  [Db OpSessionLocal None; Db OpAdd None; Sql (INSERT (w_next_id w));
   Db OpCommit None; Sql (SELECT (w_next_id w)); Db OpRefresh None;
   Log INFO ("Form submitted successfully. Record ID: "
             +:+ pretty (w_next_id w))]
  ++ provider_commit (e_outcome env at_provider_commit).

(** Every way a request can go: the world it leaves and the answer. *)
Inductive Handled (R : Release) (T : Tables) (w : World) (env : Env)
    : Request -> World -> Response -> Prop :=
| Handled_root :
    Handled R T w env GET_root w
      {| status := 200; body := Text "Hello World!" |}
| Handled_health :
    Handled R T w env GET_health
      (extend w (Db OpSessionLocal None
                   :: provider_commit (e_outcome env 0%nat)))
      {| status := 200; body := Health "healthy" |}
| Handled_invalid (form : Schema.RawForm)
    (errors : list Schema.FieldError) :
    Schema.validate T form = inl errors ->
    Handled R T w env (POST_submit_form form)
      (extend w (rejection_events R env))
      (rejection_response R errors)
| Handled_failed (form : Schema.RawForm) (d : Schema.FormData) (n : nat)
    (e : exn) :
    Schema.validate T form = inr d ->
    (n <= at_refresh)%nat ->
    (forall i, (i < n)%nat -> e_outcome env i = None) ->
    e_outcome env n = Some e ->
    Handled R T w env (POST_submit_form form)
      {| w_table := if (n =? at_refresh)%nat
                    then <[w_next_id w
                           := row_of d (w_next_id w) (e_now env)]> (w_table w)
                    else w_table w;
         w_next_id := if (n =? at_refresh)%nat then w_next_id w + 1
                      else w_next_id w;
         w_journal := w_journal w
                      ++ Db OpSessionLocal None
                         :: events_before n (w_next_id w)
                      ++ failed (op_at n) e |}
      (error_response R e)
| Handled_created (form : Schema.RawForm) (d : Schema.FormData) :
    Schema.validate T form = inr d ->
    (forall i, (i <= at_refresh)%nat -> e_outcome env i = None) ->
    Handled R T w env (POST_submit_form form)
      {| w_table := <[w_next_id w := row_of d (w_next_id w) (e_now env)]>
                      (w_table w);
         w_next_id := w_next_id w + 1;
         w_journal := w_journal w ++ created_events w env |}
      {| status := 201;
         body := Submitted "Form submitted successfully!"
                   (Some (w_next_id w)) |}.

(** ** A small instance of the tables, to evaluate examples

    ASCII whitespace, ASCII digits, and an address check that asks for a
    non-empty local part, an [@] and a dotted domain, all free of
    whitespace.  The library's tables are larger; they agree with these on
    the inputs used below. *)

Definition ascii_whitespace (c : char) : bool :=
  ((9 <=? c) && (c <=? 13) || (c =? 32))%N.

Definition ascii_digit (c : char) : bool := ((48 <=? c) && (c <=? 57))%N.

Fixpoint split_at (sep : char) (x : str) : option (str * str) :=
  match x with
  | [] => None
  | c :: rest =>
      if (c =? sep)%N then Some ([], rest)
      else match split_at sep rest with
           | Some (l, r) => Some (c :: l, r)
           | None => None
           end
  end.

Definition simple_email (x : str) : option str :=
  match split_at 64%N x with
  | Some (c :: _, domain) =>
      if existsb ascii_whitespace x then None
      else match split_at 46%N domain with
           | Some (_ :: _, _ :: _) => Some x
           | _ => None
           end
  | _ => None
  end.

Lemma ascii_space : ascii_whitespace 32%N = true.
Proof. reflexivity. Qed.

Lemma ascii_digit_range (c : char) : (48 <= c <= 57)%N -> ascii_digit c = true.
Proof.
  intros [Hlo Hhi]. unfold ascii_digit.
  apply andb_true_iff; split; apply N.leb_le; assumption.
Qed.

Lemma ascii_digit_not_whitespace (c : char) :
  ascii_digit c = true -> ascii_whitespace c = false.
Proof.
  unfold ascii_digit, ascii_whitespace. intros H.
  apply andb_true_iff in H as [Hlo Hhi].
  apply N.leb_le in Hlo. apply N.leb_le in Hhi.
  apply orb_false_iff; split.
  - apply andb_false_iff; right. apply N.leb_gt. lia.
  - apply N.eqb_neq. lia.
Qed.

Definition ascii_tables : Tables :=
  {| is_whitespace := ascii_whitespace;
     is_digit := ascii_digit;
     validate_email := simple_email;
     space_is_whitespace := ascii_space;
     ascii_digit_is_digit := ascii_digit_range;
     digit_not_whitespace := ascii_digit_not_whitespace |}.

Definition empty_world : World :=
  {| w_table := ∅; w_next_id := 1; w_journal := [] |}.

Definition form (n e p : string) : Schema.RawForm :=
  {| Schema.raw_name := Schema.Str (codepoints n);
     Schema.raw_email := Schema.Str (codepoints e);
     Schema.raw_number := Schema.Str (codepoints p) |}.

Definition ada : Schema.RawForm :=
  form "Ada Lovelace" "ada@example.com" "5551234567".

(** The table once Ada's form has been stored at time 0. *)
Definition ada_row : Grandeur :=
  {| id := Some 1; name := Some (codepoints "Ada Lovelace");
     email := Some (codepoints "ada@example.com");
     phone_number := Some (codepoints "5551234567");
     created_at := Some 0 |}.

Definition one_row_world : World :=
  {| w_table := {[1 := ada_row]}; w_next_id := 2; w_journal := [] |}.

(** * Properties *)

(** ** The schema *)

Section SchemaFacts.
Context (T : Tables).

Lemma lstrip_all_whitespace (x : str) :
  forallb (is_whitespace T) x = true -> Schema.lstrip T x = [].
Proof.
  induction x as [|c rest IH]; simpl; [reflexivity|].
  intros H. apply andb_true_iff in H as [Hc Hrest].
  rewrite Hc. apply IH, Hrest.
Qed.

Lemma strip_all_whitespace (x : str) :
  forallb (is_whitespace T) x = true -> Schema.strip T x = [].
Proof.
  intros H. unfold Schema.strip.
  rewrite (lstrip_all_whitespace x H). reflexivity.
Qed.

Lemma lstrip_clean (x : str) : clean T x -> Schema.lstrip T x = x.
Proof.
  intros H. destruct H as [|c rest Hc _]; simpl; [reflexivity|].
  rewrite Hc. reflexivity.
Qed.

Lemma strip_clean (x : str) : clean T x -> Schema.strip T x = x.
Proof.
  intros H. unfold Schema.strip.
  rewrite (lstrip_clean x H).
  rewrite lstrip_clean by (apply List.Forall_rev, H).
  apply rev_involutive.
Qed.

Lemma digits_clean (x : str) :
  Forall (fun c => is_digit T c = true) x -> clean T x.
Proof.
  unfold clean. intros H. eapply Forall_impl; [exact H|].
  intros c. apply digit_not_whitespace.
Qed.

Lemma matches_10_digits_spec (x : str) :
  Schema.matches_10_digits T x = true <->
  length x = 10%nat /\ Forall (fun c => is_digit T c = true) x.
Proof.
  unfold Schema.matches_10_digits.
  rewrite andb_true_iff, Nat.eqb_eq, forallb_forall, List.Forall_forall.
  reflexivity.
Qed.

Lemma validate_name_inr (r : Schema.Raw) (v : str) :
  Schema.validate_name T r = inr v <->
  exists n, r = Schema.Str n /\ v = Schema.strip T n
            /\ (1 <= length v <= 255)%nat.
Proof.
  unfold Schema.validate_name. split.
  - destruct r as [| |n]; [discriminate|discriminate|].
    destruct (Nat.ltb_spec (length (Schema.strip T n)) 1); [discriminate|].
    destruct (Nat.ltb_spec 255 (length (Schema.strip T n))); [discriminate|].
    intros [= <-]. exists n. repeat split; lia.
  - intros (n & -> & -> & Hlo & Hhi).
    destruct (Nat.ltb_spec (length (Schema.strip T n)) 1); [lia|].
    destruct (Nat.ltb_spec 255 (length (Schema.strip T n))); [lia|].
    reflexivity.
Qed.

Lemma validate_email_field_inr (r : Schema.Raw) (v : str) :
  Schema.validate_email_field T r = inr v <->
  exists e, r = Schema.Str e /\ validate_email T (Schema.strip T e) = Some v.
Proof.
  unfold Schema.validate_email_field. split.
  - destruct r as [| |e]; [discriminate|discriminate|].
    destruct (validate_email T (Schema.strip T e)) as [v'|] eqn:Hv;
      [|discriminate].
    intros [= <-]. exists e. split; [reflexivity|assumption].
  - intros (e & -> & ->). reflexivity.
Qed.

Lemma validate_number_inr (r : Schema.Raw) (v : str) :
  Schema.validate_number T r = inr v <->
  exists p, r = Schema.Str p /\ v = Schema.strip T p
            /\ Schema.matches_10_digits T v = true.
Proof.
  unfold Schema.validate_number. split.
  - destruct r as [| |p]; [discriminate|discriminate|].
    destruct (Schema.matches_10_digits T (Schema.strip T p)) eqn:Hm;
      [|discriminate].
    intros [= <-]. exists p. repeat split; assumption.
  - intros (p & -> & -> & ->). reflexivity.
Qed.

(** The schema accepts exactly when its three fields do, and the value it
    builds holds the three validated fields. *)
Lemma validate_inr (raw : Schema.RawForm) (d : Schema.FormData) :
  Schema.validate T raw = inr d <->
  Schema.validate_name T (Schema.raw_name raw) = inr (Schema.name d)
  /\ Schema.validate_email_field T (Schema.raw_email raw)
     = inr (Schema.email d)
  /\ Schema.validate_number T (Schema.raw_number raw)
     = inr (Schema.number d).
Proof.
  unfold Schema.validate. split.
  - destruct (Schema.validate_name T _) as [?|n];
      destruct (Schema.validate_email_field T _) as [?|e];
      destruct (Schema.validate_number T _) as [?|p];
      try discriminate.
    intros [= <-]. simpl. repeat split.
  - intros (-> & -> & ->). destruct d; reflexivity.
Qed.

(** A field that fails makes the schema fail, and its error is reported. *)
Lemma validate_name_inl (raw : Schema.RawForm) (why : Schema.Reason) :
  Schema.validate_name T (Schema.raw_name raw) = inl why ->
  exists errors, Schema.validate T raw = inl errors
                 /\ (Schema.FName, why) ∈ errors.
Proof.
  intros H. unfold Schema.validate. rewrite H. simpl.
  eexists; split; [reflexivity|]. apply list_elem_of_here.
Qed.

Lemma validate_number_inl (raw : Schema.RawForm) (why : Schema.Reason) :
  Schema.validate_number T (Schema.raw_number raw) = inl why ->
  exists errors, Schema.validate T raw = inl errors
                 /\ (Schema.FNumber, why) ∈ errors.
Proof.
  intros H. unfold Schema.validate. rewrite H.
  destruct (Schema.validate_name T _), (Schema.validate_email_field T _);
    simpl; eexists; (split; [reflexivity|]);
    repeat first [apply list_elem_of_here | apply list_elem_of_further].
Qed.

End SchemaFacts.

(** ** The session provider *)

Lemma get_db_enter_eq (w : World) (env : Env) :
  get_db_enter (enter w env) = (Ok tt, opened w env).
Proof. reflexivity. Qed.

(** Resumed normally, the provider commits; when its commit raises it rolls
    back; either way it closes the session and raises nothing. *)
Lemma get_db_exit_Next (c : Ctx) :
  pending c = [] -> get_db_exit Next c = (Ok tt, after_next c).
Proof.
  destruct c as [t k j h pd o i nw]. cbn [pending]. intros ->.
  unfold get_db_exit, try_finally, try_except, at_yield, ret,
    db_commit, db_rollback, db_close, fallible, after_next, bind.
  cbn. destruct (o i) as [e|]; cbn; rewrite <- ?app_assoc; reflexivity.
Qed.

(** With an exception thrown in, the provider rolls back, closes the
    session, and does not raise again. *)
Lemma get_db_exit_Throw (c : Ctx) (e : exn) :
  get_db_exit (Throw e) c = (Ok tt, after_throw c).
Proof.
  destruct c as [t k j h pd o i nw].
  unfold get_db_exit, try_finally, try_except, at_yield, raise,
    db_rollback, db_close, after_throw, bind.
  cbn. rewrite <- app_assoc. reflexivity.
Qed.

Section WithGetDb.
Context {A : Type} (R : Release) (handler : A -> M Body).

Lemma with_get_db_returns (args : A) (c c0 c1 : Ctx) (b : Body) :
  get_db_enter c = (Ok tt, c0) ->
  handler args c0 = (Ok b, c1) ->
  pending c1 = [] ->
  with_get_db R (inr args) handler c = (Ok b, after_next c1).
Proof.
  intros Henter Hrun Hp.
  unfold with_get_db, with_dependency, bind, attempt, ret.
  rewrite Henter, Hrun, (get_db_exit_Next c1 Hp). reflexivity.
Qed.

Lemma with_get_db_raises (args : A) (c c0 c1 : Ctx) (e : exn) :
  get_db_enter c = (Ok tt, c0) ->
  handler args c0 = (Raise e, c1) ->
  with_get_db R (inr args) handler c
  = (Raise (after_swallow R e), after_throw c1).
Proof.
  intros Henter Hrun.
  unfold with_get_db, with_dependency, bind, attempt, raise.
  rewrite Henter, Hrun, (get_db_exit_Throw c1 e). reflexivity.
Qed.

Lemma with_get_db_invalid (errors : list Schema.FieldError) (c c0 : Ctx) :
  get_db_enter c = (Ok tt, c0) ->
  pending c0 = [] ->
  with_get_db R (inl errors) handler c
  = if throws_rejection R
    then (Raise (after_swallow R (RequestValidationError errors)),
          after_throw c0)
    else (Raise (RequestValidationError errors), after_next c0).
Proof.
  intros Henter Hp. unfold with_get_db, with_dependency, bind, raise.
  rewrite Henter. destruct (throws_rejection R).
  - rewrite (get_db_exit_Throw c0 _). reflexivity.
  - rewrite (get_db_exit_Next c0 Hp). reflexivity.
Qed.

End WithGetDb.

(** ** The monad and the calls on the session, one step at a time *)

Section Steps.
Context {A B : Type}.

Lemma bind_Ok (m : M A) (k : A -> M B) (c c' : Ctx) (a : A) :
  m c = (Ok a, c') -> bind m k c = k a c'.
Proof. intros H. unfold bind. rewrite H. reflexivity. Qed.

Lemma bind_Raise (m : M A) (k : A -> M B) (c c' : Ctx) (e : exn) :
  m c = (Raise e, c') -> bind m k c = (Raise e, c').
Proof. intros H. unfold bind. rewrite H. reflexivity. Qed.

Lemma try_except_Ok (m : M A) (h : exn -> M A) (c c' : Ctx) (a : A) :
  m c = (Ok a, c') -> try_except m h c = (Ok a, c').
Proof. intros H. unfold try_except. rewrite H. reflexivity. Qed.

Lemma try_except_Raise (m : M A) (h : exn -> M A) (c c' : Ctx) (e : exn) :
  m c = (Raise e, c') -> try_except m h c = h e c'.
Proof. intros H. unfold try_except. rewrite H. reflexivity. Qed.

End Steps.

Ltac lists :=
  change (@lookup nat Grandeur (list Grandeur) list_lookup)
    with (@list_lookup Grandeur);
  change (@insert nat Grandeur (list Grandeur) list_insert)
    with (@list_insert Grandeur).

Ltac crunch := lists; cbn -[insert lookup pretty].

Section Calls.
Context (t : gmap Z Grandeur) (k : Z) (j : list Event) (h : list Grandeur)
  (pd : list nat) (o : nat -> option exn) (i : nat) (nw : Z).

Local Abbreviation ctx t k j h pd i :=
  {| table := t; next_id := k; journal := j; heap := h; pending := pd;
     outcome := o; calls := i; now := nw |}.

Lemma fallible_ok (op : DbOp) :
  o i = None -> fallible op (ctx t k j h pd i) = (Ok tt, ctx t k j h pd (S i)).
Proof. intros H. unfold fallible. cbn. rewrite H. reflexivity. Qed.

Lemma fallible_raises (op : DbOp) (e : exn) :
  o i = Some e ->
  fallible op (ctx t k j h pd i)
  = (Raise e, ctx t k (j ++ [Db op (Some e)]) h pd (S i)).
Proof. intros H. unfold fallible. cbn. rewrite H. reflexivity. Qed.

Lemma new_Grandeur_ok (n e p : str) :
  o i = None ->
  new_Grandeur n e p (ctx t k j h pd i)
  = (Ok (length h), ctx t k j (h ++ [new_object n e p]) pd (S i)).
Proof.
  intros H. unfold new_Grandeur.
  rewrite (bind_Ok _ _ _ _ _ (fallible_ok OpGrandeur H)). reflexivity.
Qed.

Lemma new_Grandeur_raises (n e p : str) (x : exn) :
  o i = Some x ->
  new_Grandeur n e p (ctx t k j h pd i)
  = (Raise x, ctx t k (j ++ [Db OpGrandeur (Some x)]) h pd (S i)).
Proof.
  intros H. unfold new_Grandeur.
  rewrite (bind_Raise _ _ _ _ _ (fallible_raises OpGrandeur x H)).
  reflexivity.
Qed.

Lemma db_add_ok (ref : nat) :
  o i = None ->
  db_add ref (ctx t k j h pd i)
  = (Ok tt, ctx t k (j ++ [Db OpAdd None]) h (pd ++ [ref]) (S i)).
Proof.
  intros H. unfold db_add.
  rewrite (bind_Ok _ _ _ _ _ (fallible_ok OpAdd H)). reflexivity.
Qed.

Lemma db_add_raises (ref : nat) (x : exn) :
  o i = Some x ->
  db_add ref (ctx t k j h pd i)
  = (Raise x, ctx t k (j ++ [Db OpAdd (Some x)]) h pd (S i)).
Proof.
  intros H. unfold db_add.
  rewrite (bind_Raise _ _ _ _ _ (fallible_raises OpAdd x H)). reflexivity.
Qed.

Lemma db_commit_raises (x : exn) :
  o i = Some x ->
  db_commit (ctx t k j h pd i)
  = (Raise x, ctx t k (j ++ [Db OpCommit (Some x)]) h pd (S i)).
Proof.
  intros H. unfold db_commit.
  rewrite (bind_Raise _ _ _ _ _ (fallible_raises OpCommit x H)). reflexivity.
Qed.

(** A commit with one object pending writes one row. *)
Lemma db_commit_one (ob : Grandeur) :
  o i = None ->
  db_commit (ctx t k j [ob] [0%nat] i)
  = (Ok tt,
     ctx (<[k := stored ob k nw]> t) (k + 1)
       ((j ++ [Sql (INSERT k)]) ++ [Db OpCommit None])
       [stored ob k nw] [] (S i)).
Proof.
  intros H. unfold db_commit, insert_one, bind, fallible. crunch.
  rewrite H. reflexivity.
Qed.

Lemma db_refresh_raises (ref : nat) (x : exn) :
  o i = Some x ->
  db_refresh ref (ctx t k j h pd i)
  = (Raise x, ctx t k (j ++ [Db OpRefresh (Some x)]) h pd (S i)).
Proof.
  intros H. unfold db_refresh.
  rewrite (bind_Raise _ _ _ _ _ (fallible_raises OpRefresh x H)).
  reflexivity.
Qed.

Lemma db_refresh_one (ob row : Grandeur) (k0 : Z) :
  o i = None -> id ob = Some k0 -> t !! k0 = Some row ->
  db_refresh 0 (ctx t k j [ob] pd i)
  = (Ok tt,
     ctx t k (j ++ [Sql (SELECT k0); Db OpRefresh None]) [row] pd (S i)).
Proof.
  intros H Hid Hrow. unfold db_refresh, bind, fallible. crunch.
  rewrite H. crunch. rewrite Hid, Hrow. reflexivity.
Qed.

Lemma attr_id_one (ob : Grandeur) :
  attr_id 0 (ctx t k j [ob] pd i) = (Ok (id ob), ctx t k j [ob] pd i).
Proof. reflexivity. Qed.

Lemma logger_info_eq (text : string) :
  logger_info text (ctx t k j h pd i)
  = (Ok tt, ctx t k (j ++ [Log INFO text]) h pd i).
Proof. reflexivity. Qed.

Lemma submit_form_except_eq (e : exn) :
  submit_form_except e (ctx t k j h pd i)
  = (Raise (HTTPException 500 (detail_for e)),
     ctx t k (j ++ [Log ERROR (log_for e)]) h pd i).
Proof. destruct e; reflexivity. Qed.

End Calls.

(** ** The submit handler, case by case *)

Ltac step lem :=
  erewrite bind_Ok by (apply lem; eassumption);
  cbv beta; cbn [length app].

Ltac journal_eq := cbn [journal table next_id pending];
  rewrite <- ?app_assoc; cbn [app]; reflexivity.

Section SubmitForm.
Context (w : World) (env : Env) (d : Schema.FormData).

Lemma submit_form_construct_raises (e : exn) :
  e_outcome env at_construct = Some e ->
  caught_in w (w_table w) (w_next_id w) [Db OpGrandeur (Some e)] e
    (submit_form d (opened w env)).
Proof.
  unfold at_construct. intros H0. unfold submit_form, opened.
  erewrite try_except_Raise
    by (apply bind_Raise, new_Grandeur_raises; eassumption).
  rewrite submit_form_except_eq.
  eexists; split; [reflexivity|]. repeat split; journal_eq.
Qed.

Lemma submit_form_add_raises (e : exn) :
  e_outcome env at_construct = None ->
  e_outcome env at_add = Some e ->
  caught_in w (w_table w) (w_next_id w) [Db OpAdd (Some e)] e
    (submit_form d (opened w env)).
Proof.
  unfold at_construct, at_add. intros H0 H1. unfold submit_form, opened.
  erewrite try_except_Raise
    by (step new_Grandeur_ok;
        apply bind_Raise, db_add_raises; eassumption).
  rewrite submit_form_except_eq.
  eexists; split; [reflexivity|]. repeat split; journal_eq.
Qed.

Lemma submit_form_commit_raises (e : exn) :
  e_outcome env at_construct = None ->
  e_outcome env at_add = None ->
  e_outcome env at_commit = Some e ->
  caught_in w (w_table w) (w_next_id w)
    [Db OpAdd None; Db OpCommit (Some e)] e
    (submit_form d (opened w env)).
Proof.
  unfold at_construct, at_add, at_commit. intros H0 H1 H2.
  unfold submit_form, opened.
  erewrite try_except_Raise
    by (step new_Grandeur_ok; step db_add_ok;
        apply bind_Raise, db_commit_raises; eassumption).
  rewrite submit_form_except_eq.
  eexists; split; [reflexivity|]. repeat split; journal_eq.
Qed.

Lemma submit_form_refresh_raises (e : exn) :
  e_outcome env at_construct = None ->
  e_outcome env at_add = None ->
  e_outcome env at_commit = None ->
  e_outcome env at_refresh = Some e ->
  caught_in w
    (<[w_next_id w := row_of d (w_next_id w) (e_now env)]> (w_table w))
    (w_next_id w + 1)
    [Db OpAdd None; Sql (INSERT (w_next_id w)); Db OpCommit None;
     Db OpRefresh (Some e)] e
    (submit_form d (opened w env)).
Proof.
  unfold at_construct, at_add, at_commit, at_refresh. intros H0 H1 H2 H3.
  unfold submit_form, opened.
  erewrite try_except_Raise
    by (step new_Grandeur_ok; step db_add_ok; step db_commit_one;
        apply bind_Raise, db_refresh_raises; eassumption).
  rewrite submit_form_except_eq.
  eexists; split; [reflexivity|]. repeat split; journal_eq.
Qed.

Lemma submit_form_returns :
  e_outcome env at_construct = None ->
  e_outcome env at_add = None ->
  e_outcome env at_commit = None ->
  e_outcome env at_refresh = None ->
  submit_form d (opened w env)
  = (Ok (Submitted "Form submitted successfully!" (Some (w_next_id w))),
     {| table := <[w_next_id w := row_of d (w_next_id w) (e_now env)]>
                   (w_table w);
        next_id := w_next_id w + 1;
        journal := w_journal w
                   ++ [Db OpSessionLocal None; Db OpAdd None;
                       Sql (INSERT (w_next_id w)); Db OpCommit None;
                       Sql (SELECT (w_next_id w)); Db OpRefresh None;
                       Log INFO ("Form submitted successfully. Record ID: "
                                 +:+ pretty (w_next_id w))];
        heap := [row_of d (w_next_id w) (e_now env)];
        pending := []; outcome := e_outcome env; calls := 4%nat;
        now := e_now env |}).
Proof.
  unfold at_construct, at_add, at_commit, at_refresh. intros H0 H1 H2 H3.
  unfold submit_form, opened. apply try_except_Ok.
  step new_Grandeur_ok. step db_add_ok. step db_commit_one.
  erewrite bind_Ok
    by (apply db_refresh_one;
        [eassumption | reflexivity | apply lookup_insert_eq]).
  cbv beta.
  erewrite bind_Ok by apply attr_id_one. cbv beta.
  erewrite bind_Ok by apply logger_info_eq. cbv beta.
  unfold ret, stored, new_object, row_of, show_id. cbn [id name email
    phone_number created_at].
  rewrite <- ?app_assoc. cbn [app]. reflexivity.
Qed.


End SubmitForm.

(** ** The routes, case by case *)

Lemma handle_submit (R : Release) (T : Tables) (w : World) (env : Env)
    (form : Schema.RawForm) :
  handle R T w (POST_submit_form form) env
  = match with_get_db R (Schema.validate T form) submit_form (enter w env)
    with
    | (r, c) => (leave c, respond 201 r)
    end.
Proof. reflexivity. Qed.

Ltac raised H :=
  destruct H as (c & Heq & Ht & Hk & Hj);
  rewrite (with_get_db_raises _ submit_form _ _ _ _ _
             (get_db_enter_eq _ _) Heq);
  unfold leave, after_throw, error_response, after_swallow, respond, failed;
  cbn [table next_id journal]; rewrite Ht, Hk, Hj;
  rewrite <- ?app_assoc; cbn [app];
  destruct (answers_swallowed _); reflexivity.

(** A submission that passes the schema: the calls are made in order and
    the first one that raises ends the handler. *)
Lemma post_valid (R : Release) (T : Tables) (w : World) (env : Env)
    (form : Schema.RawForm) (d : Schema.FormData) :
  Schema.validate T form = inr d ->
  handle R T w (POST_submit_form form) env =
  let k := w_next_id w in
  let t' := <[k := row_of d k (e_now env)]> (w_table w) in
  let j := w_journal w in
  match e_outcome env at_construct with
  | Some e =>
      ({| w_table := w_table w; w_next_id := k;
          w_journal := j ++ Db OpSessionLocal None :: failed OpGrandeur e |},
       error_response R e)
  | None =>
  match e_outcome env at_add with
  | Some e =>
      ({| w_table := w_table w; w_next_id := k;
          w_journal := j ++ Db OpSessionLocal None :: failed OpAdd e |},
       error_response R e)
  | None =>
  match e_outcome env at_commit with
  | Some e =>
      ({| w_table := w_table w; w_next_id := k;
          w_journal := j ++ Db OpSessionLocal None :: Db OpAdd None
                         :: failed OpCommit e |},
       error_response R e)
  | None =>
  match e_outcome env at_refresh with
  | Some e =>
      ({| w_table := t'; w_next_id := k + 1;
          w_journal := j ++ Db OpSessionLocal None :: Db OpAdd None
                         :: Sql (INSERT k) :: Db OpCommit None
                         :: failed OpRefresh e |},
       error_response R e)
  | None =>
      ({| w_table := t'; w_next_id := k + 1;
          w_journal := j ++ Db OpSessionLocal None :: Db OpAdd None
                         :: Sql (INSERT k) :: Db OpCommit None
                         :: Sql (SELECT k) :: Db OpRefresh None
                         :: Log INFO ("Form submitted successfully. Record ID: "
                                      +:+ pretty k)
                         :: provider_commit
                              (e_outcome env at_provider_commit) |},
       {| status := 201;
          body := Submitted "Form submitted successfully!" (Some k) |})
  end end end end.
Proof.
  intros Hv. rewrite handle_submit, Hv. cbv zeta.
  destruct (e_outcome env at_construct) as [e|] eqn:H0.
  { raised (submit_form_construct_raises w env d e H0). }
  destruct (e_outcome env at_add) as [e|] eqn:H1.
  { raised (submit_form_add_raises w env d e H0 H1). }
  destruct (e_outcome env at_commit) as [e|] eqn:H2.
  { raised (submit_form_commit_raises w env d e H0 H1 H2). }
  destruct (e_outcome env at_refresh) as [e|] eqn:H3.
  { raised (submit_form_refresh_raises w env d e H0 H1 H2 H3). }
  rewrite (with_get_db_returns R submit_form _ _ _ _ _
             (get_db_enter_eq _ _) (submit_form_returns w env d H0 H1 H2 H3)
             eq_refl).
  unfold leave, after_next, respond, at_provider_commit.
  cbn [table next_id journal outcome calls].
  rewrite <- ?app_assoc. cbn [app]. reflexivity.
Qed.

(** A submission that fails the schema never reaches the handler. *)
Lemma post_invalid (R : Release) (T : Tables) (w : World) (env : Env)
    (form : Schema.RawForm) (errors : list Schema.FieldError) :
  Schema.validate T form = inl errors ->
  handle R T w (POST_submit_form form) env =
  (extend w (rejection_events R env), rejection_response R errors).
Proof.
  intros Hv. rewrite handle_submit, Hv.
  rewrite (with_get_db_invalid R submit_form errors _ _
             (get_db_enter_eq _ _) eq_refl).
  unfold extend, rejection_events, rejection_response, after_swallow.
  destruct (throws_rejection R), (answers_swallowed R);
    unfold leave, after_next, after_throw, opened, respond;
    cbn [table next_id journal outcome calls andb negb];
    rewrite <- ?app_assoc; cbn [app]; reflexivity.
Qed.

(** A validated submission whose first raising call is the n-th. *)
Lemma post_failed (R : Release) (T : Tables) (w : World) (env : Env)
    (form : Schema.RawForm) (d : Schema.FormData) (n : nat) (e : exn) :
  Schema.validate T form = inr d ->
  (n <= at_refresh)%nat ->
  (forall i, (i < n)%nat -> e_outcome env i = None) ->
  e_outcome env n = Some e ->
  handle R T w (POST_submit_form form) env
  = ({| w_table := if (n =? at_refresh)%nat
                   then <[w_next_id w
                          := row_of d (w_next_id w) (e_now env)]> (w_table w)
                   else w_table w;
        w_next_id := if (n =? at_refresh)%nat then w_next_id w + 1
                     else w_next_id w;
        w_journal := w_journal w
                     ++ Db OpSessionLocal None
                        :: events_before n (w_next_id w)
                     ++ failed (op_at n) e |},
     error_response R e).
Proof.
  intros Hv Hn Hbefore Hat. unfold at_refresh in *.
  rewrite (post_valid R T w env form d Hv). cbv zeta.
  unfold at_construct, at_add, at_commit, at_refresh.
  destruct n as [|[|[|[|n]]]]; [| | | |lia].
  - rewrite Hat. reflexivity.
  - rewrite (Hbefore 0%nat), Hat by lia. reflexivity.
  - rewrite (Hbefore 0%nat), (Hbefore 1%nat), Hat by lia. reflexivity.
  - rewrite (Hbefore 0%nat), (Hbefore 1%nat), (Hbefore 2%nat), Hat by lia.
    reflexivity.
Qed.

(** [health_check] answers whatever the state is: its [try] block cannot
    raise. *)
Lemma health_check_eq (c : Ctx) : health_check c = (Ok (Health "healthy"), c).
Proof. reflexivity. Qed.

Lemma get_health (R : Release) (T : Tables) (w : World) (env : Env) :
  handle R T w GET_health env =
  ({| w_table := w_table w; w_next_id := w_next_id w;
      w_journal := w_journal w ++ Db OpSessionLocal None
                     :: provider_commit (e_outcome env 0%nat) |},
   {| status := 200; body := Health "healthy" |}).
Proof.
  change (handle R T w GET_health env)
    with (match with_get_db R (inr tt) (fun _ : unit => health_check)
                  (enter w env)
          with (r, c) => (leave c, respond 200 r) end).
  rewrite (with_get_db_returns R (fun _ : unit => health_check) tt _ _ _ _
             (get_db_enter_eq _ _) (health_check_eq _) eq_refl).
  unfold leave, after_next, opened, respond.
  cbn [table next_id journal outcome calls].
  rewrite <- ?app_assoc. cbn [app]. reflexivity.
Qed.

Lemma get_root (R : Release) (T : Tables) (w : World) (env : Env) :
  handle R T w GET_root env
  = (w, {| status := 200; body := Text "Hello World!" |}).
Proof. destruct w. reflexivity. Qed.

(** ** What a request does to the table *)

Lemma handle_effect (R : Release) (T : Tables) (w : World) (rq : Request)
    (env : Env) (w' : World) (resp : Response) :
  handle R T w rq env = (w', resp) -> Effect T w rq env w' resp.
Proof.
  assert (forall w1 r, w_table w1 = w_table w -> w_next_id w1 = w_next_id w ->
            status r <> 201 -> returned_id r = None ->
            (w1, r) = (w', resp) -> Effect T w rq env w' resp) as untouched.
  { intros w1 r Ht Hk Hs Hr [= <- <-]. by apply Untouched. }
  assert (forall b, status {| status := 200; body := b |} <> 201) as H200
    by (intros b; cbn; discriminate).
  assert (forall errors, status (rejection_response R errors) <> 201) as H422
    by (intros errors; unfold rejection_response;
        destruct (_ && _); cbn; discriminate).
  assert (forall errors, returned_id (rejection_response R errors) = None)
    as Hrej
    by (intros errors; unfold rejection_response;
        destruct (_ && _); reflexivity).
  assert (forall e, status (error_response R e) <> 201) as H500
    by (intros e; cbn; discriminate).
  assert (forall e, returned_id (error_response R e) = None) as Herr
    by (intros e; unfold error_response;
        destruct (answers_swallowed R); reflexivity).
  destruct rq as [|form|].
  - rewrite get_root. apply untouched; auto.
  - destruct (Schema.validate T form) as [errors|d] eqn:Hv.
    + rewrite (post_invalid R T w env form errors Hv). apply untouched; auto.
    + rewrite (post_valid R T w env form d Hv). cbv zeta.
      destruct (e_outcome env at_construct); [apply untouched; auto|].
      destruct (e_outcome env at_add); [apply untouched; auto|].
      destruct (e_outcome env at_commit); [apply untouched; auto|].
      destruct (e_outcome env at_refresh); intros [= <- <-];
        apply (Inserted T w _ env _ _ form d); auto.
  - rewrite get_health. apply untouched; auto.
Qed.

Lemma wf_world_fresh (w : World) :
  wf_world w -> w_table w !! w_next_id w = None.
Proof.
  intros [_ Hkeys]. destruct (w_table w !! w_next_id w) eqn:Hl; [|reflexivity].
  assert (is_Some (w_table w !! w_next_id w)) as Hs by (rewrite Hl; eauto).
  apply Hkeys in Hs. lia.
Qed.

Lemma handle_wf (R : Release) (T : Tables) (w : World) (rq : Request)
    (env : Env) (w' : World) (resp : Response) :
  wf_world w -> handle R T w rq env = (w', resp) ->
  wf_world w' /\ w_next_id w <= w_next_id w'.
Proof.
  intros Hwf H. pose proof Hwf as [Hpos Hkeys].
  destruct (handle_effect _ _ _ _ _ _ _ H)
    as [Ht Hk _ _|form d _ _ Ht Hk _].
  - unfold wf_world. rewrite Ht, Hk. split; [split; assumption|lia].
  - unfold wf_world. rewrite Ht, Hk. split; [split; [lia|]|lia].
    intros k Hs. rewrite lookup_insert in Hs.
    case_decide as Heq; [lia|]. apply Hkeys in Hs. lia.
Qed.

(** Along a run the sequence only grows, and every identifier handed out
    lies below where the sequence has got to. *)
Lemma serve_returned (R : Release) (T : Tables) (rs : list (Request * Env)) :
  forall (w0 w : World) (resps : list Response),
    wf_world w0 -> serve R T w0 rs = (w, resps) ->
    wf_world w /\ w_next_id w0 <= w_next_id w
    /\ Forall (fun k => w_next_id w0 <= k < w_next_id w) (returned_ids resps).
Proof.
  induction rs as [|[rq env] rest IH]; intros w0 w resps Hwf; simpl.
  - intros [= <- <-]. split; [exact Hwf|split; [lia|constructor]].
  - destruct (handle R T w0 rq env) as [w1 resp] eqn:Hh.
    destruct (serve R T w1 rest) as [w2 resps'] eqn:Hs.
    intros [= <- <-].
    destruct (handle_wf _ _ _ _ _ _ _ Hwf Hh) as [Hwf1 Hle1].
    destruct (IH _ _ _ Hwf1 Hs) as (Hwf2 & Hle2 & Hall).
    split; [assumption|]. split; [lia|].
    unfold returned_ids. simpl. fold (returned_ids resps').
    assert (Forall (fun k => w_next_id w0 <= k < w_next_id w2)
              (returned_ids resps')) as Hall'.
    { eapply Forall_impl; [exact Hall|]. simpl. intros k Hk. lia. }
    destruct (returned_id resp) as [k|] eqn:Hr; [|exact Hall'].
    constructor; [|exact Hall'].
    destruct (handle_effect _ _ _ _ _ _ _ Hh)
      as [_ _ _ Hnone|form d _ _ _ Hk [Hnone|Hsome]]; try congruence.
    assert (k = w_next_id w0) by congruence. lia.
Qed.

(** ** The schema on particular inputs *)

Lemma ten_digits_accepted (T : Tables) (p : str) :
  length p = 10%nat -> Forall (fun c => is_digit T c = true) p ->
  Schema.validate_number T (Schema.Str p) = inr p.
Proof.
  intros Hlen Hdig. apply validate_number_inr. exists p.
  assert (Schema.strip T p = p) as Hs
    by (apply strip_clean, digits_clean, Hdig).
  split; [reflexivity|]. split; [symmetry; exact Hs|].
  apply matches_10_digits_spec; split; assumption.
Qed.

Lemma row_of_ok (T : Tables) (form : Schema.RawForm) (d : Schema.FormData)
    (k t : Z) :
  Schema.validate T form = inr d -> row_ok T (row_of d k t).
Proof.
  intros Hv. apply validate_inr in Hv as (Hn & He & Hp).
  apply validate_name_inr in Hn as (n & _ & _ & Hlen).
  apply validate_number_inr in Hp as (p & _ & _ & Hm).
  apply matches_10_digits_spec in Hm as [Hten Hdig].
  exists (Schema.name d), (Schema.email d), (Schema.number d).
  simpl. repeat split; try assumption; lia.
Qed.

Lemma empty_world_wf : wf_world empty_world.
Proof.
  split; [simpl; lia|]. intros k [row Hrow]. simpl in Hrow.
  rewrite lookup_empty in Hrow. discriminate.
Qed.

Lemma one_row_world_wf : wf_world one_row_world.
Proof.
  split; [simpl; lia|]. intros k [row Hrow]. simpl in Hrow |- *.
  destruct (decide (k = 1)) as [->|Hne]; [lia|].
  rewrite lookup_singleton_ne in Hrow by congruence. discriminate.
Qed.

(** ** C1: a valid submission is created and gets a fresh identifier *)

(** C1.  After any run of the service that started from a table whose keys
    lie below its sequence, a submission whose name has 1 to 255 code
    points once stripped, whose email the address validator accepts (on
    the stripped field, which is what the schema hands it) and whose
    number is exactly ten digits is answered, when none of the handler's
    calls on the session raises, with status 201 and the body
    [{"message": "Form submitted successfully!", "record_id": k}], where
    [k] is positive and is not an identifier returned by any earlier
    successful submission of the run. *)
Theorem C1_valid_submission_created (R : Release) (T : Tables)
    (w0 w : World) (rs : list (Request * Env)) (resps : list Response)
    (form : Schema.RawForm) (env : Env) (n e p : str) :
  wf_world w0 ->
  serve R T w0 rs = (w, resps) ->
  Schema.raw_name form = Schema.Str n ->
  (1 <= length (Schema.strip T n) <= 255)%nat ->
  Schema.raw_email form = Schema.Str e ->
  is_Some (validate_email T (Schema.strip T e)) ->
  Schema.raw_number form = Schema.Str p ->
  length p = 10%nat ->
  Forall (fun c => is_digit T c = true) p ->
  (forall i, (i <= at_refresh)%nat -> e_outcome env i = None) ->
  exists (k : Z) (w' : World),
    handle R T w (POST_submit_form form) env
    = (w', {| status := 201;
              body := Submitted "Form submitted successfully!" (Some k) |})
    /\ 0 < k
    /\ k ∉ returned_ids resps.
Proof.
  intros Hwf Hrun Hn Hlen He [e' He'] Hp Hten Hdig Hok.
  destruct (serve_returned R T rs w0 w resps Hwf Hrun) as (Hwf' & _ & Hbelow).
  assert (Schema.validate T form
          = inr {| Schema.name := Schema.strip T n; Schema.email := e';
                   Schema.number := p |}) as Hv.
  { apply validate_inr. simpl. rewrite Hn, He, Hp. repeat split.
    - apply validate_name_inr. exists n. repeat split; lia.
    - apply validate_email_field_inr. exists e. split; [reflexivity|exact He'].
    - apply ten_digits_accepted; assumption. }
  exists (w_next_id w). eexists. split; [|split].
  - rewrite (post_valid R T w env form _ Hv). cbv zeta.
    rewrite (Hok at_construct), (Hok at_add), (Hok at_commit),
      (Hok at_refresh) by (unfold at_construct, at_add, at_commit,
                             at_refresh; lia).
    reflexivity.
  - destruct Hwf' as [Hpos _]. lia.
  - intros Hin. rewrite List.Forall_forall in Hbelow.
    apply list_elem_of_In, Hbelow in Hin. lia.
Qed.

(** The scenario of the specification: Ada's form on the empty table is
    answered 201 with identifier 1. *)
Lemma C1_witness :
  exists (k : Z) (w' : World),
    handle recent_release ascii_tables empty_world (POST_submit_form ada)
      (no_faults 0)
    = (w', {| status := 201;
              body := Submitted "Form submitted successfully!" (Some k) |})
    /\ 0 < k
    /\ k ∉ returned_ids [].
Proof.
  apply (C1_valid_submission_created recent_release ascii_tables
           empty_world empty_world [] [] ada (no_faults 0)
           (codepoints "Ada Lovelace") (codepoints "ada@example.com")
           (codepoints "5551234567")).
  - exact empty_world_wf.
  - reflexivity.
  - reflexivity.
  - vm_compute. split; lia.
  - reflexivity.
  - vm_compute. eauto.
  - reflexivity.
  - reflexivity.
  - vm_compute. repeat constructor.
  - reflexivity.
Defined.

(** ** C2: a number that is not ten digits is rejected *)

(** The events the provider leaves for a rejected body hold no statement
    and no log record. *)
Lemma rejection_events_plain (R : Release) (env : Env) :
  (forall st, Sql st ∉ rejection_events R env)
  /\ (forall level text, Log level text ∉ rejection_events R env).
Proof.
  unfold rejection_events.
  split; intros; intros Hin; apply list_elem_of_In in Hin;
    destruct (throws_rejection R), (e_outcome env 0%nat);
    simpl in Hin; intuition discriminate.
Qed.

(** A submission the schema rejects never reaches the handler, whatever
    the framework does with the validation error: it is not answered 201,
    an answer 422 carries the field errors, the table and the sequence
    stay as they were, and what the provider does with the session it had
    opened sends no statement and logs nothing. *)
Lemma rejected (R : Release) (T : Tables) (w : World) (env : Env)
    (form : Schema.RawForm) (errors : list Schema.FieldError) :
  Schema.validate T form = inl errors ->
  exists (w' : World) (resp : Response) (evs : list Event),
    handle R T w (POST_submit_form form) env = (w', resp)
    /\ status resp <> 201
    /\ (status resp = 422 -> body resp = ValidationDetail errors)
    /\ w_table w' = w_table w /\ w_next_id w' = w_next_id w
    /\ w_journal w' = w_journal w ++ evs
    /\ (forall st, Sql st ∉ evs)
    /\ (forall level text, Log level text ∉ evs).
Proof.
  intros Hv.
  exists (extend w (rejection_events R env)), (rejection_response R errors),
    (rejection_events R env).
  split; [apply (post_invalid R T w env form errors Hv)|].
  destruct (rejection_events_plain R env) as [Hsql Hlog].
  unfold rejection_response.
  destruct (throws_rejection R && negb (answers_swallowed R)); cbn;
    repeat split; try discriminate; assumption.
Qed.




(** ** C3: the name must have 1 to 255 code points once stripped *)

(** C3.  The schema accepts a submission, and the submission is answered
    201, only if its name, stripped of leading and trailing whitespace,
    has between 1 and 255 code points.  A submission whose name is empty
    or made of whitespace only is rejected by the schema with the
    validation error "string too short" on [name]: whatever the release
    of the framework, it is not answered 201, an answer 422 carries that
    error, and the table and its sequence are left as they were. *)
Theorem C3_name_length (R : Release) (T : Tables) (w w' : World) (env : Env)
    (form : Schema.RawForm) (resp : Response) :
  handle R T w (POST_submit_form form) env = (w', resp) ->
  (forall d, Schema.validate T form = inr d ->
             exists n, Schema.raw_name form = Schema.Str n
                       /\ Schema.name d = Schema.strip T n
                       /\ (1 <= length (Schema.strip T n) <= 255)%nat)
  /\ (status resp = 201 ->
      exists n, Schema.raw_name form = Schema.Str n
                /\ (1 <= length (Schema.strip T n) <= 255)%nat)
  /\ (forall n, Schema.raw_name form = Schema.Str n ->
                forallb (is_whitespace T) n = true ->
                exists errors,
                  Schema.validate T form = inl errors
                  /\ (Schema.FName, Schema.StringTooShort) ∈ errors
                  /\ status resp <> 201
                  /\ (status resp = 422
                      -> body resp = ValidationDetail errors)
                  /\ w_table w' = w_table w /\ w_next_id w' = w_next_id w).
Proof.
  intros Hh.
  assert (forall d, Schema.validate T form = inr d ->
            exists n, Schema.raw_name form = Schema.Str n
                      /\ Schema.name d = Schema.strip T n
                      /\ (1 <= length (Schema.strip T n) <= 255)%nat)
    as Haccepts.
  { intros d Hv. apply validate_inr in Hv as (Hn & _ & _).
    apply validate_name_inr in Hn as (n & Hraw & Hval & Hlen).
    exists n. rewrite <- Hval. repeat split; try assumption; lia. }
  split; [exact Haccepts|]. split.
  - intros Hst.
    destruct (Schema.validate T form) as [errors|d] eqn:Hv.
    + destruct (rejected R T w env form errors Hv)
        as (w1 & resp1 & evs & Hh1 & Hne & _).
      rewrite Hh1 in Hh. injection Hh as <- <-. contradiction.
    + destruct (Haccepts d eq_refl) as (n & Hraw & _ & Hlen).
      exists n. split; assumption.
  - intros n Hraw Hws.
    assert (Schema.validate_name T (Schema.raw_name form)
            = inl Schema.StringTooShort) as Hname.
    { rewrite Hraw. unfold Schema.validate_name.
      rewrite (strip_all_whitespace T n Hws). reflexivity. }
    destruct (validate_name_inl T form _ Hname) as (errors & Hv & Hin).
    destruct (rejected R T w env form errors Hv)
      as (w1 & resp1 & evs & Hh1 & Hne & Hbody & Ht & Hk & _).
    rewrite Hh1 in Hh. injection Hh as <- <-.
    exists errors. repeat split; assumption.
Qed.

(** Scenario 2 of the specification (an empty name is rejected and stores
    nothing), and scenario 1 (Ada's form is answered 201, and her name has
    between 1 and 255 code points). *)
Lemma C3_witness :
  let r := handle recent_release ascii_tables empty_world
             (POST_submit_form (form "" "ada@example.com" "5551234567"))
             (no_faults 0) in
  (exists errors,
     Schema.validate ascii_tables (form "" "ada@example.com" "5551234567")
     = inl errors
     /\ (Schema.FName, Schema.StringTooShort) ∈ errors
     /\ status r.2 <> 201
     /\ (status r.2 = 422 -> body r.2 = ValidationDetail errors)
     /\ w_table r.1 = w_table empty_world
     /\ w_next_id r.1 = w_next_id empty_world)
  /\ exists n, Schema.raw_name ada = Schema.Str n
               /\ (1 <= length (Schema.strip ascii_tables n) <= 255)%nat.
Proof.
  cbv zeta. split.
  - destruct (C3_name_length recent_release ascii_tables empty_world _
                (no_faults 0) (form "" "ada@example.com" "5551234567") _
                (surjective_pairing _)) as (_ & _ & Hrejected).
    apply (Hrejected []); reflexivity.
  - destruct (C3_name_length recent_release ascii_tables empty_world _
                (no_faults 0) ada _ (surjective_pairing _))
      as (_ & Haccepted & _).
    apply Haccepted. vm_compute. reflexivity.
Defined.

(** ** C10: every string field is stripped before it is validated *)

Lemma strip_padded (T : Tables) (x : str) :
  clean T x -> Schema.strip T (32%N :: x ++ [32%N]) = x.
Proof.
  intros Hx. unfold Schema.strip. simpl. rewrite space_is_whitespace.
  destruct Hx as [|c rest Hc Hrest]; simpl.
  - rewrite space_is_whitespace. reflexivity.
  - rewrite Hc. simpl. rewrite rev_app_distr. simpl.
    rewrite space_is_whitespace.
    assert (clean T (rev (c :: rest))) as Hrev
      by (apply List.Forall_rev; constructor; assumption).
    simpl in Hrev. rewrite (lstrip_clean T _ Hrev).
    rewrite rev_app_distr, rev_involutive. reflexivity.
Qed.

Lemma digits_5551234567 (T : Tables) :
  Forall (fun c => is_digit T c = true) (codepoints "5551234567").
Proof.
  simpl. repeat constructor; apply ascii_digit_is_digit; lia.
Qed.

(** C10.  Whatever the schema accepts, the validated name is the stripped
    raw name, the validated number is the stripped raw number, and the
    validated email is what the address validator made of the stripped raw
    email.  In particular a submission with a valid name and email and the
    number [" 5551234567 "], which by itself does not match the pattern of
    ten digits, is accepted: when none of the handler's calls raises it is
    answered 201 and the row stored under the new key holds the phone
    number ["5551234567"]. *)
Theorem C10_fields_stripped (R : Release) (T : Tables) :
  (forall form d,
     Schema.validate T form = inr d ->
     exists n e p,
       Schema.raw_name form = Schema.Str n
       /\ Schema.raw_email form = Schema.Str e
       /\ Schema.raw_number form = Schema.Str p
       /\ Schema.name d = Schema.strip T n
       /\ validate_email T (Schema.strip T e) = Some (Schema.email d)
       /\ Schema.number d = Schema.strip T p)
  /\ (forall w env form n e,
        Schema.raw_name form = Schema.Str n ->
        (1 <= length (Schema.strip T n) <= 255)%nat ->
        Schema.raw_email form = Schema.Str e ->
        is_Some (validate_email T (Schema.strip T e)) ->
        Schema.raw_number form = Schema.Str (codepoints " 5551234567 ") ->
        (forall i, (i <= at_refresh)%nat -> e_outcome env i = None) ->
        Schema.matches_10_digits T (codepoints " 5551234567 ") = false
        /\ exists w' row,
             handle R T w (POST_submit_form form) env
             = (w', {| status := 201;
                       body := Submitted "Form submitted successfully!"
                                 (Some (w_next_id w)) |})
             /\ w_table w' !! w_next_id w = Some row
             /\ phone_number row = Some (codepoints "5551234567")).
Proof.
  split.
  - intros form d Hv. apply validate_inr in Hv as (Hn & He & Hp).
    apply validate_name_inr in Hn as (n & Hrn & Hvn & _).
    apply validate_email_field_inr in He as (e & Hre & Hve).
    apply validate_number_inr in Hp as (p & Hrp & Hvp & _).
    exists n, e, p. repeat split; assumption.
  - intros w env form n e Hn Hlen He [e' He'] Hp Hok.
    split; [reflexivity|].
    assert (Schema.strip T (codepoints " 5551234567 ")
            = codepoints "5551234567") as Hstrip
      by (apply (strip_padded T (codepoints "5551234567")), digits_clean,
            digits_5551234567).
    assert (Schema.validate T form
            = inr {| Schema.name := Schema.strip T n; Schema.email := e';
                     Schema.number := codepoints "5551234567" |}) as Hv.
    { apply validate_inr. simpl. rewrite Hn, He, Hp. repeat split.
      - apply validate_name_inr. exists n. repeat split; lia.
      - apply validate_email_field_inr. exists e.
        split; [reflexivity|exact He'].
      - apply validate_number_inr. exists (codepoints " 5551234567 ").
        split; [reflexivity|]. split; [symmetry; exact Hstrip|].
        apply matches_10_digits_spec.
        split; [reflexivity|apply digits_5551234567]. }
    do 2 eexists. split; [|split].
    + rewrite (post_valid R T w env form _ Hv). cbv zeta.
      rewrite (Hok at_construct), (Hok at_add), (Hok at_commit),
        (Hok at_refresh) by (unfold at_construct, at_add, at_commit,
                               at_refresh; lia).
      reflexivity.
    + cbn [w_table]. apply lookup_insert_eq.
    + reflexivity.
Qed.

Lemma C10_witness :
  (exists n e p,
     Schema.raw_name ada = Schema.Str n /\ Schema.raw_email ada = Schema.Str e
     /\ Schema.raw_number ada = Schema.Str p
     /\ codepoints "Ada Lovelace" = Schema.strip ascii_tables n
     /\ validate_email ascii_tables (Schema.strip ascii_tables e)
        = Some (codepoints "ada@example.com")
     /\ codepoints "5551234567" = Schema.strip ascii_tables p)
  /\ Schema.matches_10_digits ascii_tables (codepoints " 5551234567 ") = false
  /\ exists w' row,
       handle recent_release ascii_tables empty_world
         (POST_submit_form (form "Ada Lovelace" "ada@example.com"
                              " 5551234567 "))
         (no_faults 0)
       = (w', {| status := 201;
                 body := Submitted "Form submitted successfully!" (Some 1) |})
       /\ w_table w' !! 1 = Some row
       /\ phone_number row = Some (codepoints "5551234567").
Proof.
  destruct (C10_fields_stripped recent_release ascii_tables)
    as [Hall Hsome]. split.
  - apply (Hall ada {| Schema.name := codepoints "Ada Lovelace";
                       Schema.email := codepoints "ada@example.com";
                       Schema.number := codepoints "5551234567" |}).
    vm_compute. reflexivity.
  - apply (Hsome empty_world (no_faults 0)
             (form "Ada Lovelace" "ada@example.com" " 5551234567 ")
             (codepoints "Ada Lovelace") (codepoints "ada@example.com")).
    + reflexivity.
    + vm_compute. split; lia.
    + reflexivity.
    + vm_compute. eauto.
    + reflexivity.
    + reflexivity.
Defined.

(** ** C7: a storage error becomes a generic 500 *)



(** ** C8: rows are only ever added *)

(** C8.  On a table whose keys lie below its sequence, whatever the
    request and whatever raises while it is handled, every row that was in
    the table is still there, unchanged, afterwards; and a request answered
    201 has added exactly one row, under a key the table did not have. *)
Theorem C8_rows_only_added (R : Release) (T : Tables) (w w' : World)
    (rq : Request) (env : Env) (resp : Response) :
  wf_world w ->
  handle R T w rq env = (w', resp) ->
  (forall k row, w_table w !! k = Some row -> w_table w' !! k = Some row)
  /\ (status resp = 201 ->
      exists k row, w_table w !! k = None
                    /\ w_table w' = <[k := row]> (w_table w)).
Proof.
  intros Hwf Hh. pose proof (wf_world_fresh w Hwf) as Hfresh.
  destruct (handle_effect _ _ _ _ _ _ _ Hh)
    as [Ht _ Hst _|form d _ _ Ht _ _].
  - rewrite Ht. split; [auto|]. intros H201. contradiction.
  - rewrite Ht. split.
    + intros k row Hk. rewrite lookup_insert_ne; [assumption|].
      intros <-. congruence.
    + intros _. eauto.
Qed.

(** Bob's form on the table that holds Ada's row: her row is still there,
    unchanged, the request is answered 201 and one row was added under a
    key the table did not have. *)
Lemma C8_witness :
  let rq := POST_submit_form (form "Bob" "bob@example.com" "5550001111") in
  let r := handle recent_release ascii_tables one_row_world rq (no_faults 9) in
  w_table one_row_world !! 1 = Some ada_row
  /\ status r.2 = 201
  /\ (forall k row, w_table one_row_world !! k = Some row ->
                    w_table r.1 !! k = Some row)
  /\ w_table r.1 !! 1 = Some ada_row
  /\ exists k row, w_table one_row_world !! k = None
                   /\ w_table r.1 = <[k := row]> (w_table one_row_world).
Proof.
  cbv zeta.
  destruct (C8_rows_only_added recent_release ascii_tables one_row_world _
              (POST_submit_form (form "Bob" "bob@example.com" "5550001111"))
              (no_faults 9) _ one_row_world_wf (surjective_pairing _))
    as [Hkept Hadded].
  assert (w_table one_row_world !! 1 = Some ada_row) as Hada
    by apply lookup_singleton_eq.
  assert (status
            (handle recent_release ascii_tables one_row_world
               (POST_submit_form (form "Bob" "bob@example.com" "5550001111"))
               (no_faults 9)).2 = 201) as H201
    by (vm_compute; reflexivity).
  split; [exact Hada|]. split; [exact H201|]. split; [exact Hkept|].
  split; [exact (Hkept 1 ada_row Hada)|]. exact (Hadded H201).
Defined.

(** ** C9: every row comes from a validated submission *)

Lemma handle_rows_ok (R : Release) (T : Tables) (w w' : World)
    (rq : Request) (env : Env) (resp : Response) :
  map_Forall (fun _ row => row_ok T row) (w_table w) ->
  handle R T w rq env = (w', resp) ->
  map_Forall (fun _ row => row_ok T row) (w_table w').
Proof.
  intros Hok Hh.
  destruct (handle_effect _ _ _ _ _ _ _ Hh)
    as [Ht _ _ _|form d _ Hv Ht _ _]; rewrite Ht; [assumption|].
  apply map_Forall_insert_2; [|assumption].
  apply (row_of_ok T form d _ _ Hv).
Qed.

(** C9.  If every row of the table has a name of 1 to 255 code points, an
    email that is not null and a phone number of exactly ten digits, then
    so has every row of the table after any run of requests, whatever
    raises along the way: the only rows written are those of validated
    submissions, field for field. *)
Theorem C9_rows_valid (R : Release) (T : Tables)
    (rs : list (Request * Env)) :
  forall (w0 w : World) (resps : list Response),
    map_Forall (fun _ row => row_ok T row) (w_table w0) ->
    serve R T w0 rs = (w, resps) ->
    map_Forall (fun _ row => row_ok T row) (w_table w).
Proof.
  induction rs as [|[rq env] rest IH]; intros w0 w resps Hok; simpl.
  - intros [= <- <-]. exact Hok.
  - destruct (handle R T w0 rq env) as [w1 resp] eqn:Hh.
    destruct (serve R T w1 rest) as [w2 resps'] eqn:Hs.
    intros [= <- <-].
    apply (IH w1 w2 resps'); [|exact Hs].
    apply (handle_rows_ok R T w0 w1 rq env resp Hok Hh).
Qed.

(** From the empty table: Ada's form, a form with a padded number, a form
    that is rejected, a health check, and a form whose refresh fails. *)
Lemma C9_witness :
  let rs := [(POST_submit_form ada, no_faults 1);
             (POST_submit_form (form " Bob " "bob@example.com"
                                  " 5551234567 "), no_faults 2);
             (POST_submit_form (form "Bob" "bob@example.com" "12345"),
              no_faults 3);
             (GET_health, no_faults 4);
             (POST_submit_form ada,
              fault_at at_refresh (SQLAlchemyError "connection lost") 5)] in
  map_Forall (fun _ row => row_ok ascii_tables row)
    (w_table (serve recent_release ascii_tables empty_world rs).1).
Proof.
  cbv zeta.
  eapply (C9_rows_valid recent_release ascii_tables _ empty_world).
  - apply map_Forall_empty.
  - apply surjective_pairing.
Defined.

(** ** C4: what the session provider does on each way out *)

(** Whatever way the provider is resumed, the last thing it does is close
    the session, and it never raises. *)
Lemma get_db_exit_closes (sg : Signal) (c : Ctx) :
  pending c = [] ->
  exists c' evs,
    get_db_exit sg c = (Ok tt, c')
    /\ journal c' = journal c ++ evs ++ [Db OpClose None].
Proof.
  intros Hp. destruct sg as [|e].
  - rewrite (get_db_exit_Next c Hp). exists (after_next c).
    destruct (outcome c (calls c)) as [e|] eqn:Ho.
    + exists [Db OpCommit (Some e); Db OpRollback None].
      split; [reflexivity|]. cbn [journal after_next]. rewrite Ho.
      reflexivity.
    + exists [Db OpCommit None]. split; [reflexivity|].
      cbn [journal after_next]. rewrite Ho. reflexivity.
  - rewrite (get_db_exit_Throw c e).
    exists (after_throw c), [Db OpRollback None].
    split; reflexivity.
Qed.

(** C4, evaluated where the code departs from it.  An exception thrown
    into the provider is rolled back and the session closed, but the
    provider writes no log record and raises nothing: the exception ends
    there.  And when the handler has returned and the provider's own
    [commit] raises, as for Ada's form with a connection lost at that
    point, the request is still answered 201 and its journal holds the
    failed commit, the rollback and the close, and not one error record. *)
Theorem C4_provider_swallows_silently :
  (forall (c : Ctx) (e : exn),
     exists c',
       get_db_exit (Throw e) c = (Ok tt, c')
       /\ journal c' = journal c ++ [Db OpRollback None; Db OpClose None])
  /\ forall R : Release,
     let r := handle R ascii_tables empty_world (POST_submit_form ada)
                (fault_at at_provider_commit
                   (SQLAlchemyError "connection lost") 0) in
     r.2 = {| status := 201;
              body := Submitted "Form submitted successfully!" (Some 1) |}
     /\ w_journal r.1
        = [Db OpSessionLocal None; Db OpAdd None; Sql (INSERT 1);
           Db OpCommit None; Sql (SELECT 1); Db OpRefresh None;
           Log INFO "Form submitted successfully. Record ID: 1";
           Db OpCommit (Some (SQLAlchemyError "connection lost"));
           Db OpRollback None; Db OpClose None]
     /\ forall text, Log ERROR text ∉ w_journal r.1.
Proof.
  split.
  - intros c e. exists (after_throw c).
    split; [apply get_db_exit_Throw|reflexivity].
  - intros R. cbv zeta.
    assert (handle R ascii_tables empty_world (POST_submit_form ada)
              (fault_at at_provider_commit
                 (SQLAlchemyError "connection lost") 0)
            = handle recent_release ascii_tables empty_world
                (POST_submit_form ada)
                (fault_at at_provider_commit
                   (SQLAlchemyError "connection lost") 0)) as ->.
    { assert (Schema.validate ascii_tables ada
              = inr {| Schema.name := codepoints "Ada Lovelace";
                       Schema.email := codepoints "ada@example.com";
                       Schema.number := codepoints "5551234567" |}) as Hv
        by (vm_compute; reflexivity).
      rewrite !(post_valid _ _ _ _ _ _ Hv). reflexivity. }
    assert (w_journal
              (handle recent_release ascii_tables empty_world
                 (POST_submit_form ada)
                 (fault_at at_provider_commit
                    (SQLAlchemyError "connection lost") 0)).1
            = [Db OpSessionLocal None; Db OpAdd None; Sql (INSERT 1);
               Db OpCommit None; Sql (SELECT 1); Db OpRefresh None;
               Log INFO "Form submitted successfully. Record ID: 1";
               Db OpCommit (Some (SQLAlchemyError "connection lost"));
               Db OpRollback None; Db OpClose None]) as Hj
      by (vm_compute; reflexivity).
    split; [vm_compute; reflexivity|]. split; [exact Hj|].
    intros text Hin. rewrite Hj in Hin. apply list_elem_of_In in Hin.
    simpl in Hin. intuition discriminate.
Qed.

(** ** C5: the health check *)


(** ** C6: the connection string at start-up *)

Lemma database_url_missing (environ : gmap string string) (c : Ctx) :
  environ !! "DATABASE_URL" = None \/ environ !! "DATABASE_URL" = Some "" ->
  Startup.database_url environ c = (Raise Startup.missing_url, c).
Proof.
  unfold Startup.database_url, Startup.os_getenv.
  intros [-> | ->]; reflexivity.
Qed.

(** C6, as stated, fails: with [DATABASE_URL] present in the environment
    and set to the empty string, the initialisation of the module raises
    all the same. *)
Lemma C6_counterexample :
  let environ : gmap string string := {["DATABASE_URL" := ""]} in
  is_Some (environ !! "DATABASE_URL")
  /\ forall c, Startup.module_init environ c = (Raise Startup.missing_url, c).
Proof.
  cbv zeta. split.
  - rewrite lookup_singleton_eq. eauto.
  - intros c. unfold Startup.module_init. apply bind_Raise.
    apply database_url_missing. right. apply lookup_singleton_eq.
Qed.

(** C6 (amended).  If [DATABASE_URL] is absent from the environment, or is
    there with the empty string for value, the initialisation of the module
    raises [ValueError("DATABASE_URL environment variable is missing")] at
    its first step: nothing is logged, no engine is created and no
    application is built.  If it is there with a non-empty value, the
    check passes and yields that value. *)
Theorem C6_database_url_required (environ : gmap string string) (c : Ctx) :
  (environ !! "DATABASE_URL" = None \/ environ !! "DATABASE_URL" = Some "" ->
   Startup.module_init environ c = (Raise Startup.missing_url, c))
  /\ (forall url,
        environ !! "DATABASE_URL" = Some url -> url <> "" ->
        Startup.database_url environ c = (Ok url, c)).
Proof.
  split.
  - intros H. unfold Startup.module_init. apply bind_Raise.
    apply database_url_missing, H.
  - intros url Hurl Hne. unfold Startup.database_url, Startup.os_getenv.
    rewrite Hurl. simpl.
    destruct (String.eqb_spec url ""); [contradiction|reflexivity].
Qed.

Lemma C6_witness :
  let c := enter empty_world (no_faults 0) in
  Startup.module_init ∅ c = (Raise Startup.missing_url, c)
  /\ Startup.database_url {["DATABASE_URL" := "sqlite:///forms.db"]} c
     = (Ok "sqlite:///forms.db", c).
Proof.
  cbv zeta. split.
  - apply (C6_database_url_required ∅). left. apply lookup_empty.
  - apply (C6_database_url_required
             {["DATABASE_URL" := "sqlite:///forms.db"]}).
    + apply lookup_singleton_eq.
    + discriminate.
Defined.

(** * Further properties of the code *)

(** ** Every way a request can go *)

Lemma handle_Handled (R : Release) (T : Tables) (w w' : World)
    (rq : Request) (env : Env) (resp : Response) :
  handle R T w rq env = (w', resp) -> Handled R T w env rq w' resp.
Proof.
  destruct rq as [|form|].
  - rewrite get_root. intros [= <- <-]. constructor.
  - destruct (Schema.validate T form) as [errors|d] eqn:Hv.
    + rewrite (post_invalid R T w env form errors Hv). intros [= <- <-].
      apply (Handled_invalid R T w env form errors Hv).
    + rewrite (post_valid R T w env form d Hv). cbv zeta.
      destruct (e_outcome env at_construct) as [e|] eqn:H0.
      { intros [= <- <-].
        apply (Handled_failed R T w env form d 0 e Hv);
          [unfold at_refresh; lia | intros i Hi; lia | exact H0]. }
      destruct (e_outcome env at_add) as [e|] eqn:H1.
      { intros [= <- <-].
        apply (Handled_failed R T w env form d 1 e Hv);
          [unfold at_refresh; lia | | exact H1].
        intros i Hi. assert (i = 0%nat) as -> by lia. exact H0. }
      destruct (e_outcome env at_commit) as [e|] eqn:H2.
      { intros [= <- <-].
        apply (Handled_failed R T w env form d 2 e Hv);
          [unfold at_refresh; lia | | exact H2].
        intros i Hi. destruct i as [|[|i]]; [exact H0|exact H1|lia]. }
      destruct (e_outcome env at_refresh) as [e|] eqn:H3.
      { intros [= <- <-].
        apply (Handled_failed R T w env form d 3 e Hv);
          [unfold at_refresh; lia | | exact H3].
        intros i Hi.
        destruct i as [|[|[|i]]]; [exact H0|exact H1|exact H2|lia]. }
      intros [= <- <-].
      apply (Handled_created R T w env form d Hv).
      intros i Hi. unfold at_refresh in Hi.
      destruct i as [|[|[|[|i]]]]; [exact H0|exact H1|exact H2|exact H3|lia].
  - rewrite get_health. intros [= <- <-]. constructor.
Qed.

(** ** The other [except] clause of [submit_form] *)



(** ** What a failed submission leaves in the table *)

(** When the construction of the record, [add] or [commit] raises, whatever
    the exception, the submission is answered 500 and nothing of it is
    stored: the table and its sequence are as before. *)
Theorem failure_up_to_commit_stores_nothing (R : Release) (T : Tables)
    (w : World) (env : Env) (form : Schema.RawForm) (d : Schema.FormData)
    (n : nat)
    (e : exn) :
  Schema.validate T form = inr d ->
  (n <= at_commit)%nat ->
  (forall i, (i < n)%nat -> e_outcome env i = None) ->
  e_outcome env n = Some e ->
  exists w' resp,
    handle R T w (POST_submit_form form) env = (w', resp)
    /\ status resp = 500
    /\ w_table w' = w_table w /\ w_next_id w' = w_next_id w.
Proof.
  intros Hv Hn Hbefore Hat. unfold at_commit in Hn.
  assert ((n =? at_refresh)%nat = false) as Hne
    by (apply Nat.eqb_neq; unfold at_refresh; lia).
  do 2 eexists. split.
  - apply (post_failed R T w env form d n e Hv); [unfold at_refresh; lia|..];
      assumption.
  - cbn [status error_response w_table w_next_id]. rewrite Hne.
    repeat split.
Qed.

Lemma failure_up_to_commit_stores_nothing_witness :
  exists w' resp,
    handle recent_release ascii_tables empty_world (POST_submit_form ada)
      (fault_at at_commit (SQLAlchemyError "connection lost") 0)
    = (w', resp)
    /\ status resp = 500
    /\ w_table w' = w_table empty_world
    /\ w_next_id w' = w_next_id empty_world.
Proof.
  apply (failure_up_to_commit_stores_nothing recent_release ascii_tables
           empty_world
           (fault_at at_commit (SQLAlchemyError "connection lost") 0) ada
           {| Schema.name := codepoints "Ada Lovelace";
              Schema.email := codepoints "ada@example.com";
              Schema.number := codepoints "5551234567" |}
           at_commit (SQLAlchemyError "connection lost")).
  - vm_compute. reflexivity.
  - unfold at_commit. lia.
  - intros i Hi. unfold at_commit in Hi.
    destruct i as [|[|i]]; [reflexivity|reflexivity|lia].
  - reflexivity.
Defined.

(** When [commit] went through and [refresh] raises, the submission is
    answered 500 although its row is stored: the row of the validated
    fields is in the table under the key the sequence gave, and the
    sequence has moved on. *)
Theorem refresh_failure_keeps_row (R : Release) (T : Tables) (w : World)
    (env : Env) (form : Schema.RawForm) (d : Schema.FormData) (e : exn) :
  Schema.validate T form = inr d ->
  (forall i, (i < at_refresh)%nat -> e_outcome env i = None) ->
  e_outcome env at_refresh = Some e ->
  exists w' resp,
    handle R T w (POST_submit_form form) env = (w', resp)
    /\ status resp = 500
    /\ w_table w' !! w_next_id w
       = Some (row_of d (w_next_id w) (e_now env))
    /\ w_next_id w' = w_next_id w + 1.
Proof.
  intros Hv Hbefore Hat. do 2 eexists. split.
  - apply (post_failed R T w env form d at_refresh e Hv (Nat.le_refl _));
      assumption.
  - cbn [status error_response w_table w_next_id]. rewrite Nat.eqb_refl.
    split; [reflexivity|]. split; [apply lookup_insert_eq|reflexivity].
Qed.

Lemma refresh_failure_keeps_row_witness :
  exists w' resp,
    handle recent_release ascii_tables empty_world (POST_submit_form ada)
      (fault_at at_refresh (SQLAlchemyError "connection lost") 7)
    = (w', resp)
    /\ status resp = 500
    /\ w_table w' !! 1
       = Some (row_of {| Schema.name := codepoints "Ada Lovelace";
                         Schema.email := codepoints "ada@example.com";
                         Schema.number := codepoints "5551234567" |} 1 7)
    /\ w_next_id w' = 1 + 1.
Proof.
  apply (refresh_failure_keeps_row recent_release ascii_tables empty_world
           (fault_at at_refresh (SQLAlchemyError "connection lost") 7) ada
           _ (SQLAlchemyError "connection lost")).
  - vm_compute. reflexivity.
  - intros i Hi. unfold at_refresh in Hi.
    destruct i as [|[|[|i]]]; [reflexivity|reflexivity|reflexivity|lia].
  - reflexivity.
Defined.

(** ** What a successful submission stores *)

(** A request answered 201 is a submission that passed the schema; the
    identifier in its answer is the key under which the table now holds
    the row made of the validated name, email and number, stamped with the
    time on the clock, and the sequence has moved one step. *)
Theorem created_row_is_the_validated_form (R : Release) (T : Tables)
    (w : World) (rq : Request) (env : Env) :
  let r := handle R T w rq env in
  status r.2 = 201 ->
  exists form d,
    rq = POST_submit_form form
    /\ Schema.validate T form = inr d
    /\ body r.2 = Submitted "Form submitted successfully!"
                    (Some (w_next_id w))
    /\ w_table r.1 !! w_next_id w
       = Some {| id := Some (w_next_id w);
                 name := Some (Schema.name d);
                 email := Some (Schema.email d);
                 phone_number := Some (Schema.number d);
                 created_at := Some (e_now env) |}
    /\ w_next_id r.1 = w_next_id w + 1.
Proof.
  cbv zeta. intros H201.
  pose proof (handle_Handled R T w _ rq env _ (surjective_pairing _)) as Hh.
  destruct Hh as [| |form errors Hv|form d n e Hv Hn Hb Hat|form d Hv Hok];
    cbn [status error_response] in H201; try discriminate.
  { exfalso. unfold rejection_response in H201.
    destruct (throws_rejection R && negb (answers_swallowed R));
      discriminate. }
  exists form, d. split; [reflexivity|]. split; [exact Hv|].
  split; [reflexivity|]. split; [apply lookup_insert_eq|reflexivity].
Qed.

Lemma created_row_is_the_validated_form_witness :
  let r := handle recent_release ascii_tables empty_world (POST_submit_form ada)
             (no_faults 7) in
  exists form d,
    POST_submit_form ada = POST_submit_form form
    /\ Schema.validate ascii_tables form = inr d
    /\ body r.2 = Submitted "Form submitted successfully!" (Some 1)
    /\ w_table r.1 !! 1
       = Some {| id := Some 1;
                 name := Some (Schema.name d);
                 email := Some (Schema.email d);
                 phone_number := Some (Schema.number d);
                 created_at := Some 7 |}
    /\ w_next_id r.1 = 1 + 1.
Proof.
  cbv zeta.
  apply (created_row_is_the_validated_form recent_release ascii_tables
           empty_world
           (POST_submit_form ada) (no_faults 7)).
  vm_compute. reflexivity.
Defined.

(** ** Rejections *)

Lemma validate_inl_nonempty (T : Tables) (form : Schema.RawForm)
    (errors : list Schema.FieldError) :
  Schema.validate T form = inl errors -> errors <> [].
Proof.
  unfold Schema.validate.
  destruct (Schema.validate_name T _), (Schema.validate_email_field T _),
    (Schema.validate_number T _); intros [= <-]; discriminate.
Qed.

(** A request answered 422 is a submission the schema rejected: the answer
    lists at least one field error, the table and its sequence are as
    before, and the journal of the request holds no statement and no log
    record. *)
Theorem answered_422_nothing_stored (R : Release) (T : Tables) (w : World)
    (rq : Request) (env : Env) :
  let r := handle R T w rq env in
  status r.2 = 422 ->
  exists form errors tail,
    rq = POST_submit_form form
    /\ Schema.validate T form = inl errors
    /\ errors <> []
    /\ body r.2 = ValidationDetail errors
    /\ w_table r.1 = w_table w /\ w_next_id r.1 = w_next_id w
    /\ w_journal r.1 = w_journal w ++ tail
    /\ (forall st, Sql st ∉ tail)
    /\ (forall level text, Log level text ∉ tail).
Proof.
  cbv zeta. intros H422.
  pose proof (handle_Handled R T w _ rq env _ (surjective_pairing _)) as Hh.
  destruct Hh as [| |form errors Hv|form d n e Hv Hn Hb Hat|form d Hv Hok];
    cbn [status error_response] in H422; try discriminate.
  exists form, errors, (rejection_events R env).
  destruct (rejection_events_plain R env) as [Hsql Hlog].
  split; [reflexivity|]. split; [exact Hv|].
  split; [exact (validate_inl_nonempty T form errors Hv)|].
  split.
  { unfold rejection_response in H422 |- *.
    destruct (throws_rejection R && negb (answers_swallowed R));
      [discriminate|reflexivity]. }
  repeat (split; [reflexivity|]). split; assumption.
Qed.

Lemma answered_422_nothing_stored_witness :
  let r := handle middle_release ascii_tables empty_world
             (POST_submit_form (form "Bob" "not-an-email" "5551234567"))
             (no_faults 0) in
  exists form0 errors tail,
    POST_submit_form (form "Bob" "not-an-email" "5551234567")
    = POST_submit_form form0
    /\ Schema.validate ascii_tables form0 = inl errors
    /\ errors <> []
    /\ body r.2 = ValidationDetail errors
    /\ w_table r.1 = w_table empty_world
    /\ w_next_id r.1 = w_next_id empty_world
    /\ w_journal r.1 = w_journal empty_world ++ tail
    /\ (forall st, Sql st ∉ tail)
    /\ (forall level text, Log level text ∉ tail).
Proof.
  cbv zeta.
  apply (answered_422_nothing_stored middle_release ascii_tables empty_world
           (POST_submit_form (form "Bob" "not-an-email" "5551234567"))
           (no_faults 0)).
  vm_compute. reflexivity.
Defined.

Lemma validate_email_inl (T : Tables) (form : Schema.RawForm)
    (why : Schema.Reason) :
  Schema.validate_email_field T (Schema.raw_email form) = inl why ->
  exists errors, Schema.validate T form = inl errors
                 /\ (Schema.FEmail, why) ∈ errors.
Proof.
  intros H. unfold Schema.validate. rewrite H.
  destruct (Schema.validate_name T _), (Schema.validate_number T _);
    simpl; eexists; (split; [reflexivity|]);
    repeat first [apply list_elem_of_here | apply list_elem_of_further].
Qed.



(** The three fields are required and must be strings: a submission in
    which one of them is absent is rejected by the schema with the error
    "missing" on that field, and one in which it holds a value that is not
    a string with the error "string type", whatever the other fields
    hold.  On every release it is not answered 201, an answer 422 carries
    that error, and the table and its sequence are as before. *)
Theorem field_without_string_rejected (R : Release) (T : Tables) (w : World)
    (env : Env) (form : Schema.RawForm) (f : Schema.Field) :
  (forall x, raw_field f form <> Schema.Str x) ->
  exists (errors : list Schema.FieldError) (w' : World) (resp : Response),
    Schema.validate T form = inl errors
    /\ (f, no_string_reason (raw_field f form)) ∈ errors
    /\ handle R T w (POST_submit_form form) env = (w', resp)
    /\ status resp <> 201
    /\ (status resp = 422 -> body resp = ValidationDetail errors)
    /\ w_table w' = w_table w /\ w_next_id w' = w_next_id w.
Proof.
  intros Hno.
  assert (exists errors,
            Schema.validate T form = inl errors
            /\ (f, no_string_reason (raw_field f form)) ∈ errors)
    as (errors & Hv & Hin).
  { destruct f; cbn [raw_field] in *.
    - apply validate_name_inl.
      destruct (Schema.raw_name form) as [| |x];
        [reflexivity|reflexivity|contradiction (Hno x); reflexivity].
    - apply validate_email_inl.
      destruct (Schema.raw_email form) as [| |x];
        [reflexivity|reflexivity|contradiction (Hno x); reflexivity].
    - apply validate_number_inl.
      destruct (Schema.raw_number form) as [| |x];
        [reflexivity|reflexivity|contradiction (Hno x); reflexivity]. }
  destruct (rejected R T w env form errors Hv)
    as (w' & resp & evs & Hh & Hne & Hbody & Ht & Hk & _).
  exists errors, w', resp. repeat split; assumption.
Qed.

(** A body without [number], and a body whose [name] is not a string. *)
Lemma field_without_string_rejected_witness :
  (exists (errors : list Schema.FieldError) (w' : World) (resp : Response),
     Schema.validate ascii_tables
       {| Schema.raw_name := Schema.Str (codepoints "Bob");
          Schema.raw_email := Schema.Str (codepoints "bob@example.com");
          Schema.raw_number := Schema.Absent |}
     = inl errors
     /\ (Schema.FNumber, Schema.Missing) ∈ errors
     /\ handle recent_release ascii_tables empty_world
          (POST_submit_form
             {| Schema.raw_name := Schema.Str (codepoints "Bob");
                Schema.raw_email := Schema.Str (codepoints "bob@example.com");
                Schema.raw_number := Schema.Absent |})
          (no_faults 0)
        = (w', resp)
     /\ status resp <> 201
     /\ (status resp = 422 -> body resp = ValidationDetail errors)
     /\ w_table w' = w_table empty_world
     /\ w_next_id w' = w_next_id empty_world)
  /\ (exists (errors : list Schema.FieldError) (w' : World) (resp : Response),
        Schema.validate ascii_tables
          {| Schema.raw_name := Schema.NotAString;
             Schema.raw_email := Schema.Str (codepoints "bob@example.com");
             Schema.raw_number := Schema.Str (codepoints "5551234567") |}
        = inl errors
        /\ (Schema.FName, Schema.StringType) ∈ errors
        /\ handle middle_release ascii_tables empty_world
             (POST_submit_form
                {| Schema.raw_name := Schema.NotAString;
                   Schema.raw_email
                   := Schema.Str (codepoints "bob@example.com");
                   Schema.raw_number
                   := Schema.Str (codepoints "5551234567") |})
             (no_faults 0)
           = (w', resp)
        /\ status resp <> 201
        /\ (status resp = 422 -> body resp = ValidationDetail errors)
        /\ w_table w' = w_table empty_world
        /\ w_next_id w' = w_next_id empty_world).
Proof.
  split.
  - apply (field_without_string_rejected recent_release ascii_tables
             empty_world (no_faults 0)
             {| Schema.raw_name := Schema.Str (codepoints "Bob");
                Schema.raw_email := Schema.Str (codepoints "bob@example.com");
                Schema.raw_number := Schema.Absent |}
             Schema.FNumber).
    intros x. discriminate.
  - apply (field_without_string_rejected middle_release ascii_tables
             empty_world (no_faults 0)
             {| Schema.raw_name := Schema.NotAString;
                Schema.raw_email := Schema.Str (codepoints "bob@example.com");
                Schema.raw_number := Schema.Str (codepoints "5551234567") |}
             Schema.FName).
    intros x. discriminate.
Defined.

(** ** The answers the service can give *)

(** [GET /] and [GET /health] are always answered 200, and a submission is
    answered 201, 422 or 500: whatever the request and whatever raises,
    the service gives no other status; in particular the 503 of
    [health_check] is never sent. *)
Theorem statuses (R : Release) (T : Tables) (w : World) (rq : Request)
    (env : Env) :
  match rq with
  | GET_root | GET_health => status (handle R T w rq env).2 = 200
  | POST_submit_form _ =>
      status (handle R T w rq env).2 = 201
      \/ status (handle R T w rq env).2 = 422
      \/ status (handle R T w rq env).2 = 500
  end.
Proof.
  pose proof (handle_Handled R T w _ rq env _ (surjective_pairing _)) as Hh.
  destruct Hh; cbn [status error_response]; auto.
  unfold rejection_response.
  destruct (throws_rejection R && negb (answers_swallowed R)); cbn; auto.
Qed.

(** ** Sessions and log records, request by request *)

Lemma provider_commit_shape (o : option exn) :
  exists evs,
    provider_commit o = evs ++ [Db OpClose None]
    /\ (Db OpSessionLocal None ∉ evs) /\ (Db OpClose None ∉ evs)
    /\ (forall text, Log ERROR text ∉ evs).
Proof.
  destruct o as [e|]; simpl.
  - exists [Db OpCommit (Some e); Db OpRollback None].
    split; [reflexivity|].
    repeat split; intros; intros Hin; apply list_elem_of_In in Hin;
      simpl in Hin; intuition discriminate.
  - exists [Db OpCommit None]. split; [reflexivity|].
    repeat split; intros; intros Hin; apply list_elem_of_In in Hin;
      simpl in Hin; intuition discriminate.
Qed.

Lemma events_before_plain (n : nat) (k : Z) (ev : Event) :
  ev ∈ events_before n k ->
  ev = Db OpAdd None \/ ev = Sql (INSERT k) \/ ev = Db OpCommit None.
Proof.
  intros Hin. apply list_elem_of_In in Hin.
  destruct n as [|[|[|n]]]; simpl in Hin; intuition.
Qed.

(** [GET /] opens no session and writes nothing to the journal.  Every
    other request, whatever it is answered and whatever raises, opens
    exactly one session, as the first thing it does, and closes it, as the
    last thing it does. *)
Theorem session_opened_once_and_closed (R : Release) (T : Tables)
    (w : World) (rq : Request) (env : Env) :
  match rq with
  | GET_root => (handle R T w rq env).1 = w
  | _ =>
      exists evs,
        w_journal (handle R T w rq env).1
        = w_journal w ++ [Db OpSessionLocal None] ++ evs ++ [Db OpClose None]
        /\ (Db OpSessionLocal None ∉ evs) /\ (Db OpClose None ∉ evs)
  end.
Proof.
  pose proof (handle_Handled R T w _ rq env _ (surjective_pairing _)) as Hh.
  destruct Hh as [| |form errors Hv|form d n e Hv Hn Hb Hat|form d Hv Hok].
  - reflexivity.
  - destruct (provider_commit_shape (e_outcome env 0%nat))
      as (evs & -> & Ho & Hc & _).
    exists evs. repeat split; assumption.
  - unfold rejection_events. destruct (throws_rejection R).
    + exists [Db OpRollback None]. split; [reflexivity|].
      split; intros Hin; apply list_elem_of_In in Hin; simpl in Hin;
        intuition discriminate.
    + destruct (provider_commit_shape (e_outcome env 0%nat))
        as (evs & Heq & Ho & Hc & _).
      exists evs. cbn [extend w_journal]. rewrite Heq.
      repeat split; assumption.
  - exists (events_before n (w_next_id w)
            ++ [Db (op_at n) (Some e); Log ERROR (log_for e);
                Db OpRollback None]).
    split.
    + cbn [w_journal]. f_equal. cbn [app]. f_equal. rewrite <- app_assoc.
      reflexivity.
    + split; intros Hin; apply elem_of_app in Hin as [Hin|Hin].
      * apply events_before_plain in Hin. intuition discriminate.
      * apply list_elem_of_In in Hin. simpl in Hin. intuition discriminate.
      * apply events_before_plain in Hin. intuition discriminate.
      * apply list_elem_of_In in Hin. simpl in Hin. intuition discriminate.
  - destruct (provider_commit_shape (e_outcome env at_provider_commit))
      as (evs & Heq & Ho & Hc & _).
    exists ([Db OpAdd None; Sql (INSERT (w_next_id w)); Db OpCommit None;
             Sql (SELECT (w_next_id w)); Db OpRefresh None;
             Log INFO ("Form submitted successfully. Record ID: "
                       +:+ pretty (w_next_id w))] ++ evs).
    split.
    + cbn [w_journal]. unfold created_events. rewrite Heq. reflexivity.
    + split; intros Hin; apply elem_of_app in Hin as [Hin|Hin];
        try contradiction;
        apply list_elem_of_In in Hin; simpl in Hin; intuition discriminate.
Qed.

(** What a request wrote to the journal holds an error record exactly when
    the request is a submission that passed the schema and for which one
    of the four calls of the handler raised; and a request that logged an
    error record is answered 500, on every release.  (The converse does
    not hold: a rejected body can be answered 500 with nothing logged.) *)
Theorem error_logged_iff_handler_failed (R : Release) (T : Tables)
    (w : World) (rq : Request) (env : Env) :
  exists tail,
    w_journal (handle R T w rq env).1 = w_journal w ++ tail
    /\ ((exists text, Log ERROR text ∈ tail)
        <-> (exists form d n e,
               rq = POST_submit_form form
               /\ Schema.validate T form = inr d
               /\ (n <= at_refresh)%nat
               /\ e_outcome env n = Some e))
    /\ ((exists text, Log ERROR text ∈ tail)
        -> status (handle R T w rq env).2 = 500).
Proof.
  pose proof (handle_Handled R T w _ rq env _ (surjective_pairing _)) as Hh.
  assert (forall (tail : list Event) (P Q : Prop),
            (forall text, Log ERROR text ∉ tail) -> ~ P ->
            ((exists text, Log ERROR text ∈ tail) <-> P)
            /\ ((exists text, Log ERROR text ∈ tail) -> Q)) as quiet.
  { intros tail P Q Hno HP. split; [split|].
    - intros [text Hin]. contradiction (Hno text).
    - intros HP'. contradiction.
    - intros [text Hin]. contradiction (Hno text). }
  destruct Hh as [| |form errors Hv|form d n e Hv Hn Hb Hat|form d Hv Hok].
  - exists []. split; [symmetry; apply app_nil_r|].
    apply quiet; [intros text; apply not_elem_of_nil|].
    intros (form & d & n & e & Hrq & _). discriminate.
  - eexists. split; [reflexivity|].
    apply quiet.
    + intros text Hin. apply list_elem_of_In in Hin.
      destruct (e_outcome env 0%nat); simpl in Hin; intuition discriminate.
    + intros (form & d & n & e & Hrq & _). discriminate.
  - exists (rejection_events R env). split; [reflexivity|].
    apply quiet.
    + apply rejection_events_plain.
    + intros (form0 & d & n & e & [= <-] & Hv' & _). congruence.
  - eexists. split; [reflexivity|]. split; [split|].
    + intros _. exists form, d, n, e. repeat split; assumption.
    + intros _. exists (log_for e).
      apply list_elem_of_further, elem_of_app. right.
      apply list_elem_of_further, list_elem_of_here.
    + intros _. reflexivity.
  - eexists. split; [reflexivity|].
    apply quiet.
    + intros text Hin. apply list_elem_of_In in Hin.
      unfold created_events in Hin.
      destruct (e_outcome env at_provider_commit); simpl in Hin;
        intuition discriminate.
    + intros (form0 & d0 & n & e & _ & _ & Hn & Hat).
      rewrite (Hok n Hn) in Hat. discriminate.
Qed.

(** ** The provider in any state *)

Lemma insert_one_journal (c : Ctx) (ref : nat) :
  exists evs, journal (insert_one c ref) = journal c ++ evs.
Proof.
  unfold insert_one. destruct (heap c !! ref) as [ob|].
  - eexists. reflexivity.
  - exists []. symmetry. apply app_nil_r.
Qed.

Lemma foldl_insert_one_journal (refs : list nat) :
  forall c, exists evs, journal (foldl insert_one c refs) = journal c ++ evs.
Proof.
  induction refs as [|ref refs IH]; intros c; simpl.
  - exists []. symmetry. apply app_nil_r.
  - destruct (IH (insert_one c ref)) as (evs2 & ->).
    destruct (insert_one_journal c ref) as (evs1 & ->).
    exists (evs1 ++ evs2). symmetry. apply app_assoc.
Qed.

Lemma db_commit_ok (c : Ctx) :
  outcome c (calls c) = None ->
  db_commit c
  = (Ok tt,
     set_journal
       (journal (foldl insert_one (set_calls (S (calls c)) c) (pending c))
        ++ [Db OpCommit None])
       (set_pending []
          (foldl insert_one (set_calls (S (calls c)) c) (pending c)))).
Proof.
  intros Ho. unfold db_commit, bind, fallible. rewrite Ho. reflexivity.
Qed.

Lemma db_commit_raises_any (c : Ctx) (e : exn) :
  outcome c (calls c) = Some e ->
  db_commit c
  = (Raise e,
     set_journal (journal c ++ [Db OpCommit (Some e)])
       (set_calls (S (calls c)) c)).
Proof.
  intros Ho. unfold db_commit, bind, fallible. rewrite Ho. reflexivity.
Qed.

(** However [get_db] is resumed and whatever the session holds, it never
    raises: it ends by closing the session, with nothing left pending.
    When an exception was thrown in, or when its own [commit] raises,
    nothing that was pending is written: the table and its sequence stay
    as they were. *)
Theorem get_db_exit_always_closes (sg : Signal) (c : Ctx) :
  exists c' evs,
    get_db_exit sg c = (Ok tt, c')
    /\ journal c' = journal c ++ evs ++ [Db OpClose None]
    /\ pending c' = []
    /\ ((sg <> Next \/ outcome c (calls c) <> None) ->
        table c' = table c /\ next_id c' = next_id c).
Proof.
  destruct sg as [|e].
  - destruct c as [t k j h pd o i nw].
    unfold get_db_exit, try_finally, try_except, at_yield.
    rewrite (bind_Ok (ret tt) (fun _ => db_commit) _ _ tt eq_refl).
    cbn [outcome calls]. destruct (o i) as [e|] eqn:Ho.
    + rewrite (db_commit_raises_any
                 {| table := t; next_id := k; journal := j; heap := h;
                    pending := pd; outcome := o; calls := i; now := nw |}
                 e Ho).
      exists {| table := t; next_id := k;
                journal := j ++ [Db OpCommit (Some e); Db OpRollback None;
                                 Db OpClose None];
                heap := h; pending := []; outcome := o; calls := S i;
                now := nw |},
        [Db OpCommit (Some e); Db OpRollback None].
      split; [|split; [reflexivity|split; [reflexivity|
                                         intros _; split; reflexivity]]].
      unfold db_rollback, db_close. cbn. rewrite <- !app_assoc. reflexivity.
    + rewrite (db_commit_ok
                 {| table := t; next_id := k; journal := j; heap := h;
                    pending := pd; outcome := o; calls := i; now := nw |}
                 Ho).
      match goal with
      | |- context [foldl insert_one ?c1 ?refs] =>
          destruct (foldl_insert_one_journal refs c1) as (evs & Hj);
          remember (foldl insert_one c1 refs) as c2 eqn:Hc2
      end.
      destruct c2 as [t2 k2 j2 h2 pd2 o2 i2 nw2].
      cbn [journal set_calls] in Hj.
      exists {| table := t2; next_id := k2;
                journal := (j2 ++ [Db OpCommit None]) ++ [Db OpClose None];
                heap := h2; pending := []; outcome := o2; calls := i2;
                now := nw2 |},
        (evs ++ [Db OpCommit None]).
      split; [reflexivity|]. cbn [journal pending].
      split; [|split; [reflexivity|]].
      * rewrite Hj. rewrite <- !app_assoc. reflexivity.
      * intros [Hsg|Hnone]; contradiction.
  - rewrite (get_db_exit_Throw c e).
    exists (after_throw c), [Db OpRollback None].
    split; [reflexivity|]. split; [reflexivity|]. split; [reflexivity|].
    intros _. split; reflexivity.
Qed.

(** ** What stripping does to a field *)

Section Strip.
Context (T : Tables).

Lemma lstrip_split (x : str) :
  exists pre, x = pre ++ Schema.lstrip T x
              /\ forallb (is_whitespace T) pre = true.
Proof.
  induction x as [|c rest (pre & Heq & Hpre)]; simpl.
  - exists []. split; reflexivity.
  - destruct (is_whitespace T c) eqn:Hc.
    + exists (c :: pre). simpl. rewrite Hc, Hpre. split; [|reflexivity].
      f_equal. exact Heq.
    + exists []. split; reflexivity.
Qed.

Lemma lstrip_head (x : str) (c : char) (rest : str) :
  Schema.lstrip T x = c :: rest -> is_whitespace T c = false.
Proof.
  induction x as [|a x IH]; simpl; [discriminate|].
  destruct (is_whitespace T a) eqn:Ha; [exact IH|].
  intros [= <- _]. exact Ha.
Qed.

Lemma lstrip_fixed (x : str) :
  (forall c rest, x = c :: rest -> is_whitespace T c = false) ->
  Schema.lstrip T x = x.
Proof.
  destruct x as [|c rest]; [reflexivity|]. intros H. simpl.
  rewrite (H c rest eq_refl). reflexivity.
Qed.

Lemma forallb_rev (f : char -> bool) (x : str) :
  forallb f x = true -> forallb f (rev x) = true.
Proof.
  rewrite !forallb_forall. intros H c Hin. apply H, in_rev, Hin.
Qed.

Lemma strip_trimmed (x : str) : trimmed_of T x (Schema.strip T x).
Proof.
  unfold Schema.strip.
  destruct (lstrip_split x) as (pre & Hx & Hpre).
  destruct (lstrip_split (rev (Schema.lstrip T x))) as (erp & Hy & Herp).
  set (y := Schema.lstrip T x) in *.
  set (z := Schema.lstrip T (rev y)) in *.
  assert (y = rev z ++ rev erp) as Hy'.
  { rewrite <- (rev_involutive y), Hy, rev_app_distr. reflexivity. }
  exists pre, (rev erp). split; [rewrite <- Hy'; exact Hx|].
  split; [exact Hpre|]. split; [apply forallb_rev, Herp|]. split.
  - intros c rest Hz. apply (lstrip_head x c (rest ++ rev erp)).
    fold y. rewrite Hy', Hz. reflexivity.
  - intros rest c Hz. apply (lstrip_head (rev y) c (rev rest)).
    fold z. rewrite <- (rev_involutive z), Hz, rev_app_distr. reflexivity.
Qed.

Lemma strip_idempotent (x : str) :
  Schema.strip T (Schema.strip T x) = Schema.strip T x.
Proof.
  destruct (strip_trimmed x) as (_ & _ & _ & _ & _ & Hfirst & Hlast).
  set (v := Schema.strip T x) in *. unfold Schema.strip at 1.
  rewrite (lstrip_fixed v Hfirst). rewrite lstrip_fixed.
  - apply rev_involutive.
  - intros c rest Hrev. apply (Hlast (rev rest) c).
    rewrite <- (rev_involutive v), Hrev. reflexivity.
Qed.

End Strip.

(** The name and the number of a validated submission are the raw fields
    without their leading and trailing whitespace: only whitespace was cut
    off, only at the two ends, and what is kept neither begins nor ends
    with a whitespace character. *)
Theorem validated_fields_trimmed (T : Tables) (form : Schema.RawForm)
    (d : Schema.FormData) :
  Schema.validate T form = inr d ->
  exists n p,
    Schema.raw_name form = Schema.Str n /\ trimmed_of T n (Schema.name d)
    /\ Schema.raw_number form = Schema.Str p
    /\ trimmed_of T p (Schema.number d).
Proof.
  intros Hv. apply validate_inr in Hv as (Hn & _ & Hp).
  apply validate_name_inr in Hn as (n & Hrn & -> & _).
  apply validate_number_inr in Hp as (p & Hrp & -> & _).
  exists n, p. repeat split; try assumption; apply strip_trimmed.
Qed.

Lemma validated_fields_trimmed_witness :
  exists n p,
    Schema.raw_name (form "  Ada Lovelace " "ada@example.com" " 5551234567")
    = Schema.Str n
    /\ trimmed_of ascii_tables n (codepoints "Ada Lovelace")
    /\ Schema.raw_number
         (form "  Ada Lovelace " "ada@example.com" " 5551234567")
       = Schema.Str p
    /\ trimmed_of ascii_tables p (codepoints "5551234567").
Proof.
  apply (validated_fields_trimmed ascii_tables
           (form "  Ada Lovelace " "ada@example.com" " 5551234567")
           {| Schema.name := codepoints "Ada Lovelace";
              Schema.email := codepoints "ada@example.com";
              Schema.number := codepoints "5551234567" |}).
  vm_compute. reflexivity.
Defined.

(** The name and the number of a validated submission pass their own
    validation again and come out unchanged: a stored name or number that
    is submitted afresh is accepted as it is. *)
Theorem validated_fields_revalidate (T : Tables) (form : Schema.RawForm)
    (d : Schema.FormData) :
  Schema.validate T form = inr d ->
  Schema.validate_name T (Schema.Str (Schema.name d)) = inr (Schema.name d)
  /\ Schema.validate_number T (Schema.Str (Schema.number d))
     = inr (Schema.number d).
Proof.
  intros Hv. apply validate_inr in Hv as (Hn & _ & Hp).
  apply validate_name_inr in Hn as (n & _ & Hvn & Hlen).
  apply validate_number_inr in Hp as (p & _ & Hvp & Hm).
  split.
  - apply validate_name_inr. exists (Schema.name d).
    split; [reflexivity|]. split; [|exact Hlen].
    rewrite Hvn. symmetry. apply strip_idempotent.
  - apply validate_number_inr. exists (Schema.number d).
    split; [reflexivity|]. split; [|exact Hm].
    rewrite Hvp. symmetry. apply strip_idempotent.
Qed.

Lemma validated_fields_revalidate_witness :
  Schema.validate_name ascii_tables (Schema.Str (codepoints "Ada Lovelace"))
  = inr (codepoints "Ada Lovelace")
  /\ Schema.validate_number ascii_tables
       (Schema.Str (codepoints "5551234567"))
     = inr (codepoints "5551234567").
Proof.
  apply (validated_fields_revalidate ascii_tables
           (form "  Ada Lovelace " "ada@example.com" " 5551234567")
           {| Schema.name := codepoints "Ada Lovelace";
              Schema.email := codepoints "ada@example.com";
              Schema.number := codepoints "5551234567" |}).
  vm_compute. reflexivity.
Defined.

(** ** The rest of the initialisation of the module *)

Section ModuleInit.
Context (environ : gmap string string) (url : string).
Context (t : gmap Z Grandeur) (k : Z) (j : list Event) (h : list Grandeur)
  (pd : list nat) (o : nat -> option exn) (i : nat) (nw : Z).
Hypothesis url_set : environ !! "DATABASE_URL" = Some url.
Hypothesis url_not_empty : url <> "".

Local Abbreviation ctx j i :=
  {| table := t; next_id := k; journal := j; heap := h; pending := pd;
     outcome := o; calls := i; now := nw |}.

Lemma database_url_ok (c : Ctx) : Startup.database_url environ c = (Ok url, c).
Proof.
  unfold Startup.database_url, Startup.os_getenv. rewrite url_set. simpl.
  destruct (String.eqb_spec url ""); [contradiction|reflexivity].
Qed.

Lemma module_init_engine_raises (e : exn) :
  o i = Some e ->
  Startup.module_init environ (ctx j i)
  = (Raise e,
     ctx (j ++ [Db OpCreateEngine (Some e);
                Log ERROR ("Failed to establish database connection: "
                           +:+ exn_str e)])
       (S i)).
Proof.
  intros Ho. unfold Startup.module_init.
  rewrite (bind_Ok _ _ _ _ _ (database_url_ok _)).
  apply bind_Raise.
  erewrite try_except_Raise
    by (apply bind_Raise, fallible_raises; exact Ho).
  unfold bind, logger_error, emit, raise, set_journal. cbn [journal table
    next_id heap pending outcome calls now].
  rewrite <- app_assoc. reflexivity.
Qed.

Lemma module_init_create_all_raises (e : exn) :
  o i = None -> o (S i) = Some e ->
  Startup.module_init environ (ctx j i)
  = (Raise e,
     ctx (j ++ [Log INFO "Database connection established successfully";
                Db OpCreateAll (Some e);
                Log ERROR ("Failed to create database tables: "
                           +:+ exn_str e)])
       (S (S i))).
Proof.
  intros Ho Ho'. unfold Startup.module_init.
  rewrite (bind_Ok _ _ _ _ _ (database_url_ok _)).
  erewrite bind_Ok; cycle 1.
  { apply try_except_Ok. erewrite bind_Ok by (apply fallible_ok; exact Ho).
    apply logger_info_eq. }
  cbv beta zeta. apply bind_Raise.
  erewrite try_except_Raise
    by (apply bind_Raise, fallible_raises; exact Ho').
  unfold bind, logger_error, emit, raise, set_journal. cbn [journal table
    next_id heap pending outcome calls now].
  rewrite <- !app_assoc. reflexivity.
Qed.

Lemma module_init_ok :
  o i = None -> o (S i) = None ->
  Startup.module_init environ (ctx j i)
  = (Ok {| Startup.DATABASE_URL := url;
           Startup.app :=
             {| Startup.title := "Form Submission API";
                Startup.description := "API for handling form submissions";
                Startup.version := "1.0.0";
                Startup.middleware :=
                  [{| Startup.allow_origins := ["*"];
                      Startup.allow_credentials := true;
                      Startup.allow_methods := ["*"];
                      Startup.allow_headers := ["*"] |}] |} |},
     ctx (j ++ [Log INFO "Database connection established successfully";
                Log INFO "Database tables created successfully"])
       (S (S i))).
Proof.
  intros Ho Ho'. unfold Startup.module_init.
  rewrite (bind_Ok _ _ _ _ _ (database_url_ok _)).
  erewrite bind_Ok; cycle 1.
  { apply try_except_Ok. erewrite bind_Ok by (apply fallible_ok; exact Ho).
    apply logger_info_eq. }
  cbv beta zeta.
  erewrite bind_Ok; cycle 1.
  { apply try_except_Ok. erewrite bind_Ok by (apply fallible_ok; exact Ho').
    apply logger_info_eq. }
  unfold ret, Startup.add_middleware.
  cbn [Startup.title Startup.description Startup.version Startup.middleware].
  rewrite <- !app_assoc. reflexivity.
Qed.

End ModuleInit.

(** With the connection string set, the module loads in three ways only,
    told apart by what [create_engine] and [create_all] do.  If
    [create_engine] raises, its exception is logged once as "Failed to
    establish database connection: ..." and comes out of the
    initialisation unchanged; the tables are not created.  If
    [create_all] raises, the success of the connection is logged, then the
    exception as "Failed to create database tables: ...", and it comes out
    unchanged.  If neither raises, the module is loaded with the
    connection string it found and an application holding one CORS
    middleware, and the two successes are logged in that order.  The
    initialisation never touches the table. *)
Theorem module_init_outcomes (environ : gmap string string) (url : string)
    (c : Ctx) :
  environ !! "DATABASE_URL" = Some url ->
  url <> "" ->
  exists r c',
    Startup.module_init environ c = (r, c')
    /\ table c' = table c /\ next_id c' = next_id c
    /\ match outcome c (calls c), outcome c (S (calls c)) with
       | Some e, _ =>
           r = Raise e
           /\ journal c'
              = journal c
                ++ [Db OpCreateEngine (Some e);
                    Log ERROR ("Failed to establish database connection: "
                               +:+ exn_str e)]
           /\ calls c' = S (calls c)
       | None, Some e =>
           r = Raise e
           /\ journal c'
              = journal c
                ++ [Log INFO "Database connection established successfully";
                    Db OpCreateAll (Some e);
                    Log ERROR ("Failed to create database tables: "
                               +:+ exn_str e)]
           /\ calls c' = S (S (calls c))
       | None, None =>
           (exists loaded,
              r = Ok loaded
              /\ Startup.DATABASE_URL loaded = url
              /\ Startup.title (Startup.app loaded) = "Form Submission API"
              /\ Startup.middleware (Startup.app loaded)
                 = [{| Startup.allow_origins := ["*"];
                       Startup.allow_credentials := true;
                       Startup.allow_methods := ["*"];
                       Startup.allow_headers := ["*"] |}])
           /\ journal c'
              = journal c
                ++ [Log INFO "Database connection established successfully";
                    Log INFO "Database tables created successfully"]
           /\ calls c' = S (S (calls c))
       end.
Proof.
  intros Hurl Hne. destruct c as [t k j h pd o i nw].
  cbn [outcome calls table next_id journal].
  destruct (o i) as [e|] eqn:Ho.
  - do 2 eexists. split;
      [apply (module_init_engine_raises environ url t k j h pd o i nw
                Hurl Hne e Ho)|].
    repeat split.
  - destruct (o (S i)) as [e|] eqn:Ho'.
    + do 2 eexists. split;
        [apply (module_init_create_all_raises environ url t k j h pd o i nw
                  Hurl Hne e Ho Ho')|].
      repeat split.
    + do 2 eexists. split;
        [apply (module_init_ok environ url t k j h pd o i nw Hurl Hne
                  Ho Ho')|].
      split; [reflexivity|]. split; [reflexivity|].
      split; [|split; reflexivity].
      eexists. split; [reflexivity|]. repeat split.
Qed.

(** A connection string that [create_engine] turns down. *)
Lemma module_init_outcomes_witness :
  let c := enter empty_world (fault_at 0 (OtherException "bad URL") 0) in
  exists r c',
    Startup.module_init {["DATABASE_URL" := "postgres://"]} c = (r, c')
    /\ table c' = table c /\ next_id c' = next_id c
    /\ r = Raise (OtherException "bad URL")
    /\ journal c'
       = journal c
         ++ [Db OpCreateEngine (Some (OtherException "bad URL"));
             Log ERROR ("Failed to establish database connection: "
                        +:+ "bad URL")]
    /\ calls c' = S (calls c).
Proof.
  cbv zeta.
  destruct (module_init_outcomes {["DATABASE_URL" := "postgres://"]}
              "postgres://"
              (enter empty_world (fault_at 0 (OtherException "bad URL") 0)))
    as (r & c' & Hrun & Ht & Hk & Hcase).
  - apply lookup_singleton_eq.
  - discriminate.
  - exists r, c'. split; [exact Hrun|]. split; [exact Ht|].
    split; [exact Hk|]. exact Hcase.
Defined.
